(** * TableExtractor: a shallow embedding of [main.py]

    The add-on reads a page range from its configuration, charges AI
    credits for the pages it is about to analyse, sends every page of
    every selected document to the table analyzer and writes the tables
    it gets back to [tables-<id>.json] or [tables-<id>.csv].

    Python integers are unbounded and are modelled by [Z].  The add-on's
    own literals (messages, file names, the name of the analyzer's model)
    are ASCII and are written as [string]s; the text that comes from the
    analyzer, and the text of a file, is a Python [str] with any code
    point in it, and is modelled by the list of its code points, [pystr].
    The host platform (DocumentCloud), the analyzer (Azure Document
    Intelligence), the file system and the user-visible effects are
    explicit: a read-only record [AddOn] for what the platform answers,
    and a [world] that is threaded through every method. *)

From Stdlib Require Import ZArith List Sorted Ascii String Lia Bool.
From Stdlib Require Import Decimal DecimalString DecimalZ DecimalFacts.
From stdpp Require Import base option gmap strings.

Import ListNotations.
Local Open Scope string_scope.
Local Open Scope Z_scope.
Local Open Scope list_scope.

(** ** Text *)

(** A Python [str]: the sequence of its code points.  Python keeps every
    code point below 0x110000, the surrogates (0xD800 to 0xDFFF)
    included; the statements that need that bound say so. *)
Abbreviation pystr := (list N).

(** The [str] of a literal of the program. *)
Fixpoint codes (s : string) : pystr :=
  match s with
  | EmptyString => []
  | String c r => N_of_ascii c :: codes r
  end.

(** ** Data model *)

(** A DocumentCloud document, as far as the add-on looks at it. *)
Record Document := mkDocument {
  doc_id : Z;
  page_count : Z
}.

(** [self.data]: the add-on's configuration.  Every key may be absent,
    which is what [dict.get] tests. *)
Record Data := mkData {
  cfg_output_format : option string;
  cfg_start_page : option Z;
  cfg_end_page : option Z
}.

(** A cell and a table as the analyzer's result object exposes them. *)
Record AzCell := mkAzCell {
  az_row_index : Z;
  az_column_index : Z;
  az_text : pystr
}.

Record AzTable := mkAzTable {
  az_page_number : Z;
  az_cells : list AzCell
}.

Record AnalyzeResult := mkResult { tables : list AzTable }.

(** The dictionaries [get_table_data] builds have a fixed set of keys, so
    they are records here; their view as generic Python values, which is
    what [json] sees, is [py_table_data] further down. *)
Record cell_info := mkCellInfo {
  row_index : Z;
  column_index : Z;
  content : pystr
}.

Record table_info := mkTableInfo {
  page_number : Z;
  cells : list cell_info
}.

(** One field of a CSV row: [convert_to_csv] puts integers and strings in
    the same list. *)
Inductive csv_value :=
| CsvInt (n : Z)
| CsvStr (s : pystr).

(** ** Effects *)

Inductive exn :=
| TypeError
| ValueError
| APIError
| AnalyzerError.

(** How a call ends: it returns, it leaves through [sys.exit], or an
    exception propagates. *)
Inductive outcome (A : Type) :=
| Return (a : A)
| SysExit (code : Z)
| Raised (e : exn).
Arguments Return {A} a.
Arguments SysExit {A} code.
Arguments Raised {A} e.

(** What [charge_credits] does with an amount: it goes through, or it
    raises one of the two exceptions [validate] catches.  Any other
    exception of the platform's client would leave [validate] and [main]
    at that point; such a failure is not among the answers modelled
    here. *)
Inductive charge_result :=
| Charged
| ChargeValueError
| ChargeAPIError.

(** The page image handed to the analyzer:
    [document.get_large_image_url(page_number)]. *)
Record image_url := LargeImageUrl { url_doc : Z; url_page : Z }.

(** What the outside world sees of a run, in order: the cost printed by
    [calculate_cost], a message set on the run, a call of
    [charge_credits], the construction of the analyzer client from the
    credentials of the environment (taken not to fail), a page submitted
    to the analyzer. *)
Inductive event :=
| EvPrint (n : Z)
| EvSetMessage (msg : string)
| EvChargeCredits (amount : Z)
| EvAuthenticate
| EvAnalyze (model : string) (url : image_url).

(** The mutable world: the events so far (oldest first) and the files of
    the working directory, by name.  A file is the text written to it.
    Both output files are opened with [encoding="utf-8"]; the encoder
    belongs to Python's file object, not to the add-on, and is not
    modelled: the bytes of a file are not looked at, and a write is
    taken to go through.  (The JSON text is ASCII whatever the table
    data hold; a CSV row carries the analyzer's text as it is, and
    Python's encoder refuses a text with a surrogate code point in
    it.) *)
Record world := mkWorld {
  trace : list event;
  files : gmap string pystr
}.

(** The add-on object: its configuration and the answers of the host
    platform and of the analyzer. *)
Record AddOn := mkAddOn {
  data : Data;
  document_count : option Z;
  documents : list Document;
  org_id : option Z;
  charge_answer : Z -> charge_result;
  analyze_answer : image_url -> option AnalyzeResult
}.

(** A small state-and-exception monad. *)
Definition M (A : Type) : Type := world -> outcome A * world.

Definition ret {A} (a : A) : M A := fun w => (Return a, w).

Definition bind {A B} (m : M A) (k : A -> M B) : M B :=
  fun w =>
    match m w with
    | (Return a, w') => k a w'
    | (SysExit c, w') => (SysExit c, w')
    | (Raised e, w') => (Raised e, w')
    end.

Notation "'let*' x ':=' m 'in' k" := (bind m (fun x => k))
  (at level 10, x name, m at level 100, k at level 200,
   format "'[v' 'let*'  x  ':='  m  'in' '/' k ']'").
Notation "'do' m 'then' k" := (bind m (fun _ => k))
  (at level 10, m at level 100, k at level 200,
   format "'[v' 'do'  m  'then' '/' k ']'").

Definition emit (e : event) : M unit :=
  fun w => (Return tt, mkWorld (trace w ++ [e]) (files w)).

Definition sys_exit {A} (code : Z) : M A := fun w => (SysExit code, w).

Definition raise {A} (e : exn) : M A := fun w => (Raised e, w).

Definition set_message (msg : string) : M unit := emit (EvSetMessage msg).

Definition print (n : Z) : M unit := emit (EvPrint n).

(** [for x in xs: body x] *)
Fixpoint for_each {A} (xs : list A) (body : A -> M unit) : M unit :=
  match xs with
  | [] => ret tt
  | x :: rest => do body x then for_each rest body
  end.

(** [for x in xs: acc = body acc x], the loop that threads a local
    variable. *)
Fixpoint for_fold {A S} (xs : list A) (acc : S) (body : S -> A -> M S) : M S :=
  match xs with
  | [] => ret acc
  | x :: rest => let* acc' := body acc x in for_fold rest acc' body
  end.

(** [dict.get(key, default)] *)
Definition get_default {A} (o : option A) (d : A) : A :=
  match o with Some a => a | None => d end.

(** ** calculate_cost *)

(** [end_page] comes from [self.data.get("end_page")], without a default:
    when the key is absent it is [None], and the comparison
    [end_page <= doc.page_count] raises [TypeError]. *)
Definition calculate_cost (self : AddOn) (docs : list Document) : M Z :=
  let* total_num_pages :=
    for_fold docs 0 (fun total_num_pages doc =>
      let start_page := get_default (cfg_start_page (data self)) 1 in
      let end_page := cfg_end_page (data self) in
      let* last_page :=
        match end_page with
        | None => raise TypeError
        | Some end_page =>
            ret (if end_page <=? page_count doc then end_page else page_count doc)
        end in
      let pages_to_analyze := last_page - start_page + 1 in
      ret (total_num_pages + pages_to_analyze)) in
  let cost := total_num_pages * 7 in
  do print cost then
  ret cost.

(** ** validate *)

(** Python truthiness of [self.org_id]. *)
Definition truthy (o : option Z) : bool :=
  match o with
  | None => false
  | Some n => negb (n =? 0)
  end.

Definition charge_credits (self : AddOn) (amount : Z) : M charge_result :=
  do emit (EvChargeCredits amount) then
  ret (charge_answer self amount).

Definition validate (self : AddOn) : M bool :=
  match document_count self with
  | None =>
      do set_message
           "It looks like no documents were selected. Search for some or select them and run again."
      then sys_exit 0
  | Some _ =>
      if negb (truthy (org_id self)) then
        do set_message "No organization to charge." then
        sys_exit 0
      else
        let* ai_credit_cost := calculate_cost self (documents self) in
        let* r := charge_credits self ai_credit_cost in
        match r with
        | Charged => ret true
        | ChargeValueError => ret false
        | ChargeAPIError => ret false
        end
  end.

(** ** get_table_data and convert_to_csv *)

(** Both methods build their result by [append] in nested loops; the
    loops are folds over an accumulator, as in the source. *)
Definition get_table_data (result : AnalyzeResult) : list table_info :=
  fold_left
    (fun table_data table =>
       let table_info :=
         fold_left
           (fun table_info cell =>
              let cell_info :=
                mkCellInfo (az_row_index cell) (az_column_index cell) (az_text cell) in
              mkTableInfo (page_number table_info) (cells table_info ++ [cell_info]))
           (az_cells table)
           (mkTableInfo (az_page_number table) []) in
       table_data ++ [table_info])
    (tables result) [].

Definition convert_to_csv (table_data : list table_info) : list (list csv_value) :=
  fold_left
    (fun csv_data table_info =>
       let page_number := page_number table_info in
       fold_left
         (fun csv_data cell =>
            let csv_row :=
              [CsvInt page_number; CsvInt (row_index cell);
               CsvInt (column_index cell); CsvStr (content cell)] in
            csv_data ++ [csv_row])
         (cells table_info) csv_data)
    table_data [].

(** ** Text: [str] of an integer, and the characters the writers look at *)

(** [str(n)] for an integer: its decimal numeral. *)
Definition str_int (n : Z) : string := NilZero.string_of_int (Z.to_int n).

Definition dquote : N := 34.
Definition backslash : N := 92.
Definition LF : N := 10.
Definition CR : N := 13.

(** ** The csv writer *)

(** The characters that make [csv.writer] quote a field. *)
Definition csv_special (c : N) : bool :=
  ((c =? 44) || (c =? 34) || (c =? 13) || (c =? 10))%N.

Fixpoint csv_needs_quote (s : pystr) : bool :=
  match s with
  | [] => false
  | c :: r => csv_special c || csv_needs_quote r
  end.

Fixpoint csv_double_quotes (s : pystr) : pystr :=
  match s with
  | [] => []
  | c :: r =>
      if (c =? 34)%N then dquote :: dquote :: csv_double_quotes r
      else c :: csv_double_quotes r
  end.

(** Modelled from the spec: [csv.writer] belongs to Python's standard
    library, which is not under src/.  The spec fixes the header and one
    row per cell; how a field is written follows the module's default
    dialect: the [str] of the value, quoted only when it holds the
    delimiter, the quote character or a character of the line
    terminator, with quotes doubled inside a quoted field. *)
Definition csv_field (v : csv_value) : pystr :=
  let s := match v with CsvInt n => codes (str_int n) | CsvStr s => s end in
  if csv_needs_quote s
  then dquote :: csv_double_quotes s ++ [dquote]
  else s.

Fixpoint csv_join (fields : list pystr) : pystr :=
  match fields with
  | [] => []
  | [f] => f
  | f :: rest => f ++ codes "," ++ csv_join rest
  end.

(** Modelled from the spec: [writer.writerow(row)] of the same module
    writes the fields separated by commas and ends the row with CR LF. *)
Definition csv_line (row : list csv_value) : pystr :=
  csv_join (map csv_field row) ++ [CR; LF].

Fixpoint csv_lines (rows : list (list csv_value)) : pystr :=
  match rows with
  | [] => []
  | row :: rest => csv_line row ++ csv_lines rest
  end.

Definition csv_header : list csv_value :=
  [CsvStr (codes "Page Number"); CsvStr (codes "Row Index");
   CsvStr (codes "Column Index"); CsvStr (codes "Content")].

(** ** Python values and [json.dumps] *)

(** The values [json] handles here: [None], booleans, integers, strings,
    lists and dictionaries with string keys (in insertion order).
    Floating-point numbers are outside the model. *)
Unset Elimination Schemes.
Inductive pyval :=
| PyNone
| PyBool (b : bool)
| PyInt (n : Z)
| PyStr (s : pystr)
| PyList (items : list pyval)
| PyDict (items : list (pystr * pyval)).
Set Elimination Schemes.

(** [table_data] as the Python value it is: a list of dictionaries. *)
Definition py_cell (c : cell_info) : pyval :=
  PyDict [(codes "row_index", PyInt (row_index c));
          (codes "column_index", PyInt (column_index c));
          (codes "content", PyStr (content c))].

Definition py_table (t : table_info) : pyval :=
  PyDict [(codes "page_number", PyInt (page_number t));
          (codes "cells", PyList (map py_cell (cells t)))].

Definition py_table_data (table_data : list table_info) : pyval :=
  PyList (map py_table table_data).

(** Lower-case hexadecimal digit, as in the format [04x]. *)
Definition hex_digit (n : N) : N :=
  (if n <? 10 then 48 + n else 87 + n)%N.

(** ['\\u{0:04x}'.format(n)], for [n] below 0x10000. *)
Definition hex4 (n : N) : pystr :=
  [backslash; 117; hex_digit (n / 4096); hex_digit (n / 256 mod 16);
   hex_digit (n / 16 mod 16); hex_digit (n mod 16)]%N.

(** Modelled from the spec: the [json] module belongs to Python's
    standard library, which is not under src/; the spec asks for a
    pretty-printed JSON array that parses back to the structure written.
    This is the replacement function of the module's
    [encode_basestring_ascii]: a backslash escape for the quote, the
    backslash and the five named control characters; for every other
    code point outside the range from space to tilde, [\uXXXX] when it
    is below 0x10000 and the two escapes of its surrogate pair
    otherwise.  The shifts and masks of the pair,
    [0xd800 | ((n >> 10) & 0x3ff)] and [0xdc00 | (n & 0x3ff)], are
    written as the quotient and the remainder they compute. *)
Definition escape_char (c : N) : pystr :=
  (if c =? 34 then [backslash; dquote]
   else if c =? 92 then [backslash; backslash]
   else if c =? 10 then [backslash; 110]
   else if c =? 13 then [backslash; 114]
   else if c =? 9 then [backslash; 116]
   else if c =? 8 then [backslash; 98]
   else if c =? 12 then [backslash; 102]
   else if (c <? 32) || (126 <? c) then
     if c <? 65536 then hex4 c
     else
       let n := c - 65536 in
       let s1 := 55296 + (n / 1024) mod 1024 in
       let s2 := 56320 + n mod 1024 in
       hex4 s1 ++ hex4 s2
   else [c])%N.

Fixpoint escape_chars (s : pystr) : pystr :=
  match s with
  | [] => []
  | c :: r => escape_char c ++ escape_chars r
  end.

Definition encode_basestring_ascii (s : pystr) : pystr :=
  dquote :: escape_chars s ++ [dquote].

Fixpoint spaces (n : nat) : pystr :=
  match n with
  | O => []
  | S n' => 32%N :: spaces n'
  end.

(** ['\n' + _indent * _current_indent_level], with [_indent = ' ' * indent] *)
Definition newline_indent (indent level : nat) : pystr :=
  LF :: spaces (indent * level).

(** The items of a list or dictionary after the first one, each behind
    the item separator: a comma and the new line's indentation. *)
Section Items.
Context {A : Type} (encode : A -> pystr) (newline_indent : pystr).

Fixpoint encode_more (items : list A) : pystr :=
  match items with
  | [] => []
  | item :: items' =>
      codes "," ++ newline_indent ++ encode item ++ encode_more items'
  end.
End Items.

(** Modelled from the spec: [_iterencode] of the [json] module's
    pure-Python encoder, which is the one [json.dumps] runs when [indent]
    is given: the item separator is a comma followed by the new line's
    indentation, the key separator a colon and a space, an empty list is
    [[]] and an empty dictionary [{}]. *)
Fixpoint iterencode (indent level : nat) (o : pyval) : pystr :=
  match o with
  | PyNone => codes "null"
  | PyBool true => codes "true"
  | PyBool false => codes "false"
  | PyInt n => codes (str_int n)
  | PyStr s => encode_basestring_ascii s
  | PyList [] => codes "[]"
  | PyList (first :: rest) =>
      codes "[" ++ newline_indent indent (S level)
      ++ iterencode indent (S level) first
      ++ encode_more (iterencode indent (S level))
                     (newline_indent indent (S level)) rest
      ++ newline_indent indent level ++ codes "]"
  | PyDict [] => codes "{}"
  | PyDict ((key, first) :: rest) =>
      codes "{" ++ newline_indent indent (S level)
      ++ encode_basestring_ascii key ++ codes ": "
      ++ iterencode indent (S level) first
      ++ encode_more
           (fun item : pystr * pyval =>
              let '(key, value) := item in
              encode_basestring_ascii key ++ codes ": "
              ++ iterencode indent (S level) value)
           (newline_indent indent (S level)) rest
      ++ newline_indent indent level ++ codes "}"
  end.

(** Modelled from the spec: [json.dumps(obj, indent=indent)]. *)
Definition json_dumps (obj : pyval) (indent : nat) : pystr :=
  iterencode indent 0 obj.

(** ** main *)

(** [range(start, stop)] *)
Definition range (start stop : Z) : list Z :=
  map (fun i => start + Z.of_nat i) (seq 0 (Z.to_nat (stop - start))).

(** [if c: body] *)
Definition when (c : bool) (body : M unit) : M unit :=
  if c then body else ret tt.

(** [begin_analyze_document_from_url(model, url)] followed by
    [poller.result()]; a failure of the service propagates. *)
Definition begin_analyze_document_from_url
    (self : AddOn) (model : string) (url : image_url) : M AnalyzeResult :=
  do emit (EvAnalyze model url) then
  match analyze_answer self url with
  | Some result => ret result
  | None => raise AnalyzerError
  end.

(** [open(path, "w")] followed by one [write]: the file holds exactly
    what was written, whatever it held before. *)
Definition write_text (path : string) (text : pystr) : M unit :=
  fun w => (Return tt, mkWorld (trace w) (<[path := text]> (files w))).

(** [open(path, "a")]: the file is created empty when it does not exist,
    and is left as it is otherwise. *)
Definition file_text (w : world) (path : string) : pystr :=
  get_default (files w !! path) [].

Definition open_append (path : string) : M unit :=
  fun w => (Return tt, mkWorld (trace w) (<[path := file_text w path]> (files w))).

(** [f.tell()] on a file opened for appending: the position is the end
    of the file. *)
Definition tell (path : string) : M Z :=
  fun w => (Return (Z.of_nat (length (file_text w path))), w).

(** A write through a file opened for appending lands at the end. *)
Definition append_text (path : string) (text : pystr) : M unit :=
  fun w =>
    (Return tt, mkWorld (trace w) (<[path := file_text w path ++ text]> (files w))).

Definition writerow (path : string) (row : list csv_value) : M unit :=
  append_text path (csv_line row).

Definition writerows (path : string) (rows : list (list csv_value)) : M unit :=
  for_each rows (writerow path).

(** The body of the loop over the documents. *)
Definition main_document
    (self : AddOn) (output_format : string) (start_page end_page : Z)
    (document : Document) : M unit :=
  let outer_bound :=
    if end_page >? page_count document
    then page_count document + 1
    else end_page + 1 in
  let* table_data :=
    for_fold (range start_page outer_bound) []
      (fun table_data page_number =>
         let image_url := LargeImageUrl (doc_id document) page_number in
         let* result :=
           begin_analyze_document_from_url self "prebuilt-layout" image_url in
         ret (table_data ++ get_table_data result)) in
  do when (String.eqb output_format "json")
       (let table_data_json := json_dumps (py_table_data table_data) 4 in
        let output_file_path := "tables-" +:+ str_int (doc_id document) +:+ ".json" in
        write_text output_file_path table_data_json)
  then
  when (String.eqb output_format "csv")
    (let output_file_path := "tables-" +:+ str_int (doc_id document) +:+ ".csv" in
     do open_append output_file_path then
     let* pos := tell output_file_path in
     do when (pos =? 0) (writerow output_file_path csv_header) then
     let csv_data := convert_to_csv table_data in
     writerows output_file_path csv_data).

Definition main (self : AddOn) : M unit :=
  let output_format := get_default (cfg_output_format (data self)) "json" in
  let start_page := get_default (cfg_start_page (data self)) 1 in
  let end_page := get_default (cfg_end_page (data self)) 1 in
  let* valid := validate self in
  do when (negb valid)
       (do set_message
             "You do not have sufficient AI credits to run this Add-On on this document set"
        then sys_exit 0)
  then
  do when (end_page <? start_page)
       (do set_message
             "The end page you provided is smaller than the start page, try again"
        then sys_exit 0)
  then
  do when (start_page <? 1)
       (do set_message "Your start page is less than 1, please try again"
        then sys_exit 0)
  then
  do emit EvAuthenticate then
  for_each (documents self) (main_document self output_format start_page end_page).

(** A world in which nothing has happened yet. *)
Definition fresh : world := mkWorld [] ∅.

(** ** [json.loads] *)

(** The decoder of the [json] module, for the values of [pyval].  A
    result [None] stands for an input the decoder rejects or whose value
    is outside the model (a floating-point number). *)

(** [WHITESPACE]: space, tab, line feed, carriage return. *)
Definition is_ws (c : N) : bool :=
  ((c =? 32) || (c =? 9) || (c =? 10) || (c =? 13))%N.

Fixpoint skip_ws (s : pystr) : pystr :=
  match s with
  | [] => []
  | c :: r => if is_ws c then skip_ws r else s
  end.

(** [BACKSLASH]: the character a one-letter escape stands for. *)
Definition backslash_char (esc : N) : option N :=
  (if esc =? 34 then Some dquote
   else if esc =? 92 then Some backslash
   else if esc =? 47 then Some 47
   else if esc =? 98 then Some 8
   else if esc =? 102 then Some 12
   else if esc =? 110 then Some LF
   else if esc =? 114 then Some CR
   else if esc =? 116 then Some 9
   else None)%N.

(** The value of a hexadecimal digit, in either case. *)
Definition hex_value (c : N) : option N :=
  (if (48 <=? c) && (c <=? 57) then Some (c - 48)
   else if (97 <=? c) && (c <=? 102) then Some (c - 87)
   else if (65 <=? c) && (c <=? 70) then Some (c - 55)
   else None)%N.

(** [_decode_uXXXX] *)
Definition decode_uXXXX (h1 h2 h3 h4 : N) : option N :=
  match hex_value h1, hex_value h2, hex_value h3, hex_value h4 with
  | Some a, Some b, Some c, Some d => Some (((a * 16 + b) * 16 + c) * 16 + d)%N
  | _, _, _, _ => None
  end.

(** The two halves of a surrogate pair: [0xd800 <= uni <= 0xdbff] and
    [0xdc00 <= uni <= 0xdfff]. *)
Definition high_surrogate (uni : N) : bool := ((55296 <=? uni) && (uni <=? 56319))%N.

Definition low_surrogate (uni : N) : bool := ((56320 <=? uni) && (uni <=? 57343))%N.

(** [0x10000 + (((uni - 0xd800) << 10) | (uni2 - 0xdc00))], for a high
    and a low surrogate: the shift and the mask as the product and the
    sum they compute there. *)
Definition join_surrogates (uni uni2 : N) : N :=
  (65536 + ((uni - 55296) * 1024 + (uni2 - 56320)))%N.

Definition prepend (c : N) (r : option (pystr * pystr)) : option (pystr * pystr) :=
  match r with
  | Some (s, rest) => Some (c :: s, rest)
  | None => None
  end.

(** Modelled from the spec: [scanstring] of the [json] module, strict.
    The input starts just after the opening quote; the result is the
    decoded string and what follows the closing quote.  A control
    character inside the string is rejected.  After the escape of a
    high surrogate the decoder looks ahead: when another [\u] escape
    follows and is a low surrogate, the two are read as the one code
    point of the pair; when it is not, the high surrogate stands alone
    and the second escape is read again on its own. *)
Fixpoint scanstring (s : pystr) : option (pystr * pystr) :=
  match s with
  | [] => None
  | c :: r =>
      if (c =? 34)%N then Some ([], r)
      else if (c =? 92)%N then
        match r with
        | [] => None
        | esc :: r' =>
            if (esc =? 117)%N then
              match r' with
              | h1 :: h2 :: h3 :: h4 :: r'' =>
                  match decode_uXXXX h1 h2 h3 h4 with
                  | Some uni =>
                      if high_surrogate uni then
                        match r'' with
                        | b :: u :: r2 =>
                            if ((b =? 92) && (u =? 117))%N then
                              match r2 with
                              | g1 :: g2 :: g3 :: g4 :: r2' =>
                                  match decode_uXXXX g1 g2 g3 g4 with
                                  | Some uni2 =>
                                      if low_surrogate uni2
                                      then prepend (join_surrogates uni uni2)
                                                   (scanstring r2')
                                      else prepend uni (scanstring r'')
                                  | None => None
                                  end
                              | _ => None
                              end
                            else prepend uni (scanstring r'')
                        | _ => prepend uni (scanstring r'')
                        end
                      else prepend uni (scanstring r'')
                  | None => None
                  end
              | _ => None
              end
            else
              match backslash_char esc with
              | Some char => prepend char (scanstring r')
              | None => None
              end
        end
      else if (c <? 32)%N then None
      else prepend c (scanstring r)
  end.

(** What [scanstring] does with the input [tail] that follows the
    escape of the high surrogate [uni]. *)
Definition after_high_surrogate (uni : N) (tail : pystr) : option (pystr * pystr) :=
  match tail with
  | b :: u :: r2 =>
      if ((b =? 92) && (u =? 117))%N then
        match r2 with
        | g1 :: g2 :: g3 :: g4 :: r2' =>
            match decode_uXXXX g1 g2 g3 g4 with
            | Some uni2 =>
                if low_surrogate uni2
                then prepend (join_surrogates uni uni2) (scanstring r2')
                else prepend uni (scanstring tail)
            | None => None
            end
        | _ => None
        end
      else prepend uni (scanstring tail)
  | _ => prepend uni (scanstring tail)
  end.

(** A decimal digit as a constructor of [Decimal.uint]. *)
Definition digit_of (c : N) : option (uint -> uint) :=
  let n := c in
  (if n =? 48 then Some D0
   else if n =? 49 then Some D1
   else if n =? 50 then Some D2
   else if n =? 51 then Some D3
   else if n =? 52 then Some D4
   else if n =? 53 then Some D5
   else if n =? 54 then Some D6
   else if n =? 55 then Some D7
   else if n =? 56 then Some D8
   else if n =? 57 then Some D9
   else None)%N.

Definition is_digit (c : N) : bool :=
  match digit_of c with Some _ => true | None => false end.

(** The longest run of digits at the head of the input. *)
Fixpoint scan_digits (s : pystr) : uint * pystr :=
  match s with
  | [] => (Nil, [])
  | c :: r =>
      match digit_of c with
      | Some digit => let '(d, rest) := scan_digits r in (digit d, rest)
      | None => (Nil, s)
      end
  end.

(** What follows the integer part makes the number a float: a fraction
    [.d] or an exponent [e d], [e+d], [e-d]. *)
Definition starts_float (s : pystr) : bool :=
  match s with
  | c :: d :: r =>
      if (c =? 46)%N then is_digit d
      else if ((c =? 101) || (c =? 69))%N then
        is_digit d
        || (((d =? 43) || (d =? 45))%N
            && match r with d' :: _ => is_digit d' | [] => false end)
      else false
  | _ => false
  end.

(** [NUMBER_RE]: an optional minus sign, then [0] or a digit from 1 to 9
    followed by digits. *)
Definition match_integer (s : pystr) : option (uint * pystr) :=
  match s with
  | [] => None
  | c :: r =>
      if (c =? 48)%N then Some (D0 Nil, r)
      else if is_digit c then Some (scan_digits s)
      else None
  end.

(** Modelled from the spec: how the scanner of the [json] module reads
    a number; only integers are in the model. *)
Definition match_number (s : pystr) : option (pyval * pystr) :=
  let '(negative, s') :=
    match s with
    | c :: r => if (c =? 45)%N then (true, r) else (false, s)
    | [] => (false, s)
    end in
  match match_integer s' with
  | Some (d, rest) =>
      if starts_float rest then None
      else Some (PyInt (Z.of_int (if negative then Neg d else Pos d)), rest)
  | None => None
  end.

(** [dict(pairs)]: a key that comes again keeps its place and takes the
    new value. *)
Fixpoint dict_set (d : list (pystr * pyval)) (key : pystr) (value : pyval)
  : list (pystr * pyval) :=
  match d with
  | [] => [(key, value)]
  | (k, v) :: d' =>
      if bool_decide (k = key) then (k, value) :: d'
      else (k, v) :: dict_set d' key value
  end.

Definition dict (pairs : list (pystr * pyval)) : list (pystr * pyval) :=
  fold_left (fun d '(key, value) => dict_set d key value) pairs [].

(** Does the input start with [word]?  If so, what follows it. *)
Fixpoint strip_prefix (word s : pystr) : option pystr :=
  match word, s with
  | [], _ => Some s
  | a :: word', b :: s' =>
      if (a =? b)%N then strip_prefix word' s' else None
  | _ :: _, [] => None
  end.

(** Modelled from the spec: [scan_once], [JSONArray] and [JSONObject] of
    the [json] module.  The decoder consumes at least one character per
    call, so its recursion is bounded by the length of the input; [fuel]
    is that bound. *)
Fixpoint scan_once (fuel : nat) (s : pystr) : option (pyval * pystr) :=
  match fuel with
  | O => None
  | S fuel' =>
      match s with
      | [] => None
      | c :: r =>
          let n := c in
          if (n =? 34)%N then
            match scanstring r with
            | Some (str, rest) => Some (PyStr str, rest)
            | None => None
            end
          else if (n =? 123)%N then
            match skip_ws r with
            | c' :: r' =>
                if (c' =? 125)%N then Some (PyDict [], r')
                else if (c' =? 34)%N then
                  match JSONObject fuel' r' with
                  | Some (pairs, rest) => Some (PyDict (dict pairs), rest)
                  | None => None
                  end
                else None
            | [] => None
            end
          else if (n =? 91)%N then
            match skip_ws r with
            | c' :: r' =>
                if (c' =? 93)%N then Some (PyList [], r')
                else
                  match JSONArray fuel' (c' :: r') with
                  | Some (values, rest) => Some (PyList values, rest)
                  | None => None
                  end
            | [] => None
            end
          else if (n =? 110)%N then
            match strip_prefix (codes "null") s with
            | Some rest => Some (PyNone, rest)
            | None => None
            end
          else if (n =? 116)%N then
            match strip_prefix (codes "true") s with
            | Some rest => Some (PyBool true, rest)
            | None => None
            end
          else if (n =? 102)%N then
            match strip_prefix (codes "false") s with
            | Some rest => Some (PyBool false, rest)
            | None => None
            end
          else match_number s
      end
  end

(** The loop of [JSONArray]: the input starts at a value. *)
with JSONArray (fuel : nat) (s : pystr) : option (list pyval * pystr) :=
  match fuel with
  | O => None
  | S fuel' =>
      match scan_once fuel' s with
      | Some (value, rest) =>
          match skip_ws rest with
          | c :: r =>
              if (c =? 93)%N then Some ([value], r)
              else if (c =? 44)%N then
                match JSONArray fuel' (skip_ws r) with
                | Some (values, rest') => Some (value :: values, rest')
                | None => None
                end
              else None
          | [] => None
          end
      | None => None
      end
  end

(** The loop of [JSONObject]: the input starts just after the opening
    quote of a key. *)
with JSONObject (fuel : nat) (s : pystr) : option (list (pystr * pyval) * pystr) :=
  match fuel with
  | O => None
  | S fuel' =>
      match scanstring s with
      | Some (key, rest) =>
          match skip_ws rest with
          | colon :: r =>
              if (colon =? 58)%N then
                match scan_once fuel' (skip_ws r) with
                | Some (value, rest') =>
                    match skip_ws rest' with
                    | c :: r' =>
                        if (c =? 125)%N then Some ([(key, value)], r')
                        else if (c =? 44)%N then
                          match skip_ws r' with
                          | q :: r'' =>
                              if (q =? 34)%N then
                                match JSONObject fuel' r'' with
                                | Some (pairs, rest'') =>
                                    Some ((key, value) :: pairs, rest'')
                                | None => None
                                end
                              else None
                          | [] => None
                          end
                        else None
                    | [] => None
                    end
                | None => None
                end
              else None
          | [] => None
          end
      | None => None
      end
  end.

(** Modelled from the spec: [json.loads(s)] reads white space, one
    value, white space, and then expects the end of the text. *)
Definition json_loads (s : pystr) : option pyval :=
  match scan_once (S (length s)) (skip_ws s) with
  | Some (obj, rest) =>
      match skip_ws rest with
      | [] => Some obj
      | _ :: _ => None
      end
  | None => None
  end.

(** [open(path).read()], which the spec's round trip needs and [main]
    does not call: a file that does not exist cannot be read. *)
Definition read_text (path : string) (w : world) : option pystr :=
  files w !! path.

(** ** Vocabulary of the statements *)

(** The events a computation adds to the trace when it runs in [w]. *)
Definition events_during {A} (m : M A) (w : world) : list event :=
  drop (length (trace w)) (trace (snd (m w))).

(** Sum of a list of integers. *)
Definition Zsum (l : list Z) : Z := fold_right Z.add 0 l.

(** The pages the specification bills for one document. *)
Definition clamped_pages (start_page end_page : Z) (doc : Document) : Z :=
  Z.min end_page (page_count doc) - start_page + 1.

Definition charged (r : charge_result) : bool :=
  match r with
  | Charged => true
  | ChargeValueError | ChargeAPIError => false
  end.

(** The three ways a call of [validate] can go. *)
Inductive validate_run (self : AddOn) (w : world) : outcome bool -> list event -> Prop :=
| validate_exits (msg : string) :
    document_count self = None \/ truthy (org_id self) = false ->
    validate_run self w (SysExit 0) [EvSetMessage msg]
| validate_faults :
    cfg_end_page (data self) = None ->
    documents self <> [] ->
    validate_run self w (Raised TypeError) []
| validate_charges (cost : Z) :
    document_count self <> None ->
    truthy (org_id self) = true ->
    fst (calculate_cost self (documents self) w) = Return cost ->
    validate_run self w (Return (charged (charge_answer self cost)))
      [EvPrint cost; EvChargeCredits cost].

(** ** What a run is expected to do, document by document *)

(** The pages [first], [first + 1], ..., [last], in this order. *)
Fixpoint count_up (first : Z) (n : nat) : list Z :=
  match n with
  | O => []
  | S k => first :: count_up (first + 1) k
  end.

Definition page_interval (first last : Z) : list Z :=
  count_up first (Z.to_nat (last - first + 1)).

(** The analyzer calls for one document: one per page of the clamped
    range, in page order. *)
Definition analyzer_calls (start_page end_page : Z) (document : Document) : list event :=
  map (fun p => EvAnalyze "prebuilt-layout" (LargeImageUrl (doc_id document) p))
      (page_interval start_page (Z.min end_page (page_count document))).

(** The tables the analyzer answers for one page, and for the clamped
    range of a document. *)
Definition page_tables (self : AddOn) (document : Document) (p : Z) : list table_info :=
  match analyze_answer self (LargeImageUrl (doc_id document) p) with
  | Some result => get_table_data result
  | None => []
  end.

Definition document_tables
    (self : AddOn) (start_page end_page : Z) (document : Document) : list table_info :=
  flat_map (page_tables self document)
           (page_interval start_page (Z.min end_page (page_count document))).

(** The names of the two output files of the document [id]. *)
Definition json_path (id : Z) : string := "tables-" +:+ str_int id +:+ ".json".

Definition csv_path (id : Z) : string := "tables-" +:+ str_int id +:+ ".csv".

(** The text of a file, the empty text for a file that does not exist. *)
Definition text_of (fs : gmap string pystr) (path : string) : pystr :=
  get_default (fs !! path) [].

(** What a CSV write adds after [old]: the header when [old] is empty,
    then one line per row. *)
Definition csv_appended (old : pystr) (rows : list (list csv_value)) : pystr :=
  (if Z.of_nat (length old) =? 0 then csv_line csv_header else [])
  ++ csv_lines rows.

(** The files after the output of one document has been written. *)
Definition written_files
    (output_format : string) (document : Document)
    (table_data : list table_info) (fs : gmap string pystr) : gmap string pystr :=
  if String.eqb output_format "json" then
    <[json_path (doc_id document) := json_dumps (py_table_data table_data) 4]> fs
  else if String.eqb output_format "csv" then
    <[csv_path (doc_id document) :=
        text_of fs (csv_path (doc_id document))
        ++ csv_appended (text_of fs (csv_path (doc_id document)))
                         (convert_to_csv table_data)]> fs
  else fs.

(** The files after the output of every document of a run has been
    written, in the order of the documents. *)
Definition files_after
    (self : AddOn) (output_format : string) (start_page end_page : Z)
    (docs : list Document) (fs : gmap string pystr) : gmap string pystr :=
  fold_left
    (fun fs document =>
       written_files output_format document
         (document_tables self start_page end_page document) fs)
    docs fs.

(** The CSV rows a run produces for the document [id]. *)
Definition csv_rows_for
    (self : AddOn) (start_page end_page : Z) (id : Z) (docs : list Document)
  : list (list csv_value) :=
  flat_map
    (fun document =>
       if doc_id document =? id
       then convert_to_csv (document_tables self start_page end_page document)
       else [])
    docs.

(** The page range [main] works with. *)
Definition main_start_page (self : AddOn) : Z :=
  get_default (cfg_start_page (data self)) 1.

Definition main_end_page (self : AddOn) : Z :=
  get_default (cfg_end_page (data self)) 1.

Definition main_output_format (self : AddOn) : string :=
  get_default (cfg_output_format (data self)) "json".

(** The dictionaries [get_table_data] makes of a cell and of a table. *)
Definition cell_info_of (cell : AzCell) : cell_info :=
  mkCellInfo (az_row_index cell) (az_column_index cell) (az_text cell).

Definition table_info_of (table : AzTable) : table_info :=
  mkTableInfo (az_page_number table) (map cell_info_of (az_cells table)).

(** The CSV row of a cell of a table. *)
Definition cell_row (t : table_info) (c : cell_info) : list csv_value :=
  [CsvInt (page_number t); CsvInt (row_index c);
   CsvInt (column_index c); CsvStr (content c)].

(** ** The values [json] reads back *)

(** What may follow an integer without changing how it reads: no digit,
    no fraction, no exponent. *)
Definition number_end (s : pystr) : bool :=
  match s with
  | [] => true
  | c :: _ =>
      negb (is_digit c)
      && negb ((c =? 46) || (c =? 101) || (c =? 69))%N
  end.

(** A text of ASCII characters only: the encoder of a file opened with
    [encoding="utf-8"] writes each of them as one byte. *)
Definition ascii_text (s : pystr) : Prop := Forall (fun c => (c < 128)%N) s.

(** Every code point of a Python [str] is below 0x110000. *)
Definition code_points (s : pystr) : bool :=
  forallb (fun c => c <? 1114112)%N s.

(** No high surrogate of [s] is immediately followed by a low
    surrogate: [s] does not hold the two halves of a pair as two code
    points. *)
Fixpoint no_surrogate_pair (s : pystr) : bool :=
  match s with
  | [] => true
  | c :: r =>
      negb (high_surrogate c
            && match r with d :: _ => low_surrogate d | [] => false end)
      && no_surrogate_pair r
  end.

(** [s] with every high surrogate that is immediately followed by a low
    surrogate replaced, together with it, by the code point of the pair,
    from left to right. *)
Fixpoint join_pairs (s : pystr) : pystr :=
  match s with
  | [] => []
  | c :: r =>
      match r with
      | d :: r' =>
          if high_surrogate c && low_surrogate d
          then join_surrogates c d :: join_pairs r'
          else c :: join_pairs r
      | [] => [c]
      end
  end.

(** The same on a Python value, in every string and every key, and on a
    [table_data], in the content of every cell. *)
Fixpoint py_join (o : pyval) : pyval :=
  match o with
  | PyStr s => PyStr (join_pairs s)
  | PyList items => PyList (map py_join items)
  | PyDict items =>
      PyDict (map (fun item => (join_pairs (fst item), py_join (snd item))) items)
  | _ => o
  end.

Definition py_join_item (item : pystr * pyval) : pystr * pyval :=
  (join_pairs (fst item), py_join (snd item)).

Definition join_cell (c : cell_info) : cell_info :=
  mkCellInfo (row_index c) (column_index c) (join_pairs (content c)).

Definition join_table (t : table_info) : table_info :=
  mkTableInfo (page_number t) (map join_cell (cells t)).

Definition join_table_data (table_data : list table_info) : list table_info :=
  map join_table table_data.

(** The content of every cell of a [table_data] is a Python [str]. *)
Definition table_strings (table_data : list table_info) : Prop :=
  forall t c, In t table_data -> In c (cells t) -> code_points (content c) = true.

(** No content of a [table_data] holds the two halves of a surrogate
    pair as two code points. *)
Definition table_unpaired (table_data : list table_info) : Prop :=
  forall t c, In t table_data -> In c (cells t) ->
    no_surrogate_pair (content c) = true.

(** Both. *)
Definition table_text (table_data : list table_info) : Prop :=
  table_strings table_data /\ table_unpaired table_data.

(** The values [json] writes and reads: their strings are Python
    strings, and the keys of a dictionary are still distinct when they
    are read back. *)
Unset Elimination Schemes.
Inductive py_wf : pyval -> Prop :=
| wf_none : py_wf PyNone
| wf_bool (b : bool) : py_wf (PyBool b)
| wf_int (n : Z) : py_wf (PyInt n)
| wf_str (s : pystr) : code_points s = true -> py_wf (PyStr s)
| wf_list (items : list pyval) :
    Forall py_wf items -> py_wf (PyList items)
| wf_dict (items : list (pystr * pyval)) :
    NoDup (map (fun item => join_pairs (fst item)) items) ->
    Forall (fun item => code_points (fst item) = true) items ->
    Forall (fun item => py_wf (snd item)) items ->
    py_wf (PyDict items).
Set Elimination Schemes.

(** Induction on a Python value, with the items of a list or dictionary
    as induction hypotheses. *)
Fixpoint pyval_ind (P : pyval -> Prop)
    (HNone : P PyNone)
    (HBool : forall b, P (PyBool b))
    (HInt : forall n, P (PyInt n))
    (HStr : forall s, P (PyStr s))
    (HList : forall items, Forall P items -> P (PyList items))
    (HDict : forall items,
        Forall (fun item => P (snd item)) items -> P (PyDict items))
    (o : pyval) {struct o} : P o :=
  match o with
  | PyNone => HNone
  | PyBool b => HBool b
  | PyInt n => HInt n
  | PyStr s => HStr s
  | PyList items =>
      HList items
        ((fix all (l : list pyval) : Forall P l :=
            match l with
            | [] => @List.Forall_nil _ P
            | x :: l' =>
                @List.Forall_cons _ P x l'
                  (pyval_ind P HNone HBool HInt HStr HList HDict x) (all l')
            end) items)
  | PyDict items =>
      HDict items
        ((fix all (l : list (pystr * pyval))
            : Forall (fun item => P (snd item)) l :=
            match l with
            | [] => @List.Forall_nil _ _
            | item :: l' =>
                @List.Forall_cons _ (fun item => P (snd item)) item l'
                  (pyval_ind P HNone HBool HInt HStr HList HDict (snd item))
                  (all l')
            end) items)
  end.

(** [decodes o]: whatever the indentation and whatever follows, the
    decoder reads the encoding of [o] as [py_join o] and stops right
    after it. *)
Definition decodes (o : pyval) : Prop :=
  forall (indent level fuel : nat) (rest : pystr),
    py_wf o ->
    (length (iterencode indent level o) <= fuel)%nat ->
    number_end rest = true ->
    scan_once fuel (iterencode indent level o ++ rest) = Some (py_join o, rest).

(** How [_iterencode_dict] writes one item. *)
Definition encode_item (indent level : nat) (item : pystr * pyval) : pystr :=
  let '(key, value) := item in
  encode_basestring_ascii key ++ codes ": " ++ iterencode indent level value.

(** ** Sample add-ons, used to run the methods on concrete inputs *)

Definition sample_result : AnalyzeResult :=
  mkResult [mkAzTable 1 [mkAzCell 0 0 (codes "a,b"); mkAzCell 0 1 (codes "x")];
            mkAzTable 1 []].

(** Pages 2 to 4 of two documents of 3 and 10 pages; the charge goes
    through. *)
Definition addon_two_documents : AddOn :=
  mkAddOn (mkData (Some "json") (Some 2) (Some 4)) (Some 2)
          [mkDocument 11 3; mkDocument 12 10] (Some 7)
          (fun _ => Charged) (fun _ => Some sample_result).

(** The same selection when the account has too few credits. *)
Definition addon_no_credits : AddOn :=
  mkAddOn (mkData (Some "json") (Some 2) (Some 4)) (Some 2)
          [mkDocument 11 3; mkDocument 12 10] (Some 7)
          (fun _ => ChargeValueError) (fun _ => Some sample_result).

(** An inverted range: pages 3 to 1 of one document of 5 pages. *)
Definition addon_inverted_range : AddOn :=
  mkAddOn (mkData (Some "json") (Some 3) (Some 1)) (Some 1)
          [mkDocument 42 5] (Some 7)
          (fun _ => Charged) (fun _ => Some sample_result).

(** A configuration without [end_page], and a search that selects no
    document. *)
Definition addon_without_end_page : AddOn :=
  mkAddOn (mkData None (Some 1) None) (Some 0) [] (Some 7)
          (fun _ => Charged) (fun _ => Some sample_result).

(** Pages 4 to 6 of a document that has 2 pages. *)
Definition addon_short_document : AddOn :=
  mkAddOn (mkData (Some "csv") (Some 4) (Some 6)) (Some 1)
          [mkDocument 42 2] (Some 7)
          (fun _ => Charged) (fun _ => Some sample_result).

(** Pages 1 to 2 of one document of 5 pages, written as CSV. *)
Definition addon_csv : AddOn :=
  mkAddOn (mkData (Some "csv") (Some 1) (Some 2)) (Some 1)
          [mkDocument 42 5] (Some 7)
          (fun _ => Charged) (fun _ => Some sample_result).



(** An analyzer whose text holds the two halves of a surrogate pair as
    two code points. *)
Definition surrogate_result : AnalyzeResult :=
  mkResult [mkAzTable 1 [mkAzCell 0 0 [55357; 56832]%N]].

Definition addon_surrogates : AddOn :=
  mkAddOn (mkData (Some "json") (Some 1) (Some 1)) (Some 1)
          [mkDocument 42 5] (Some 7)
          (fun _ => Charged) (fun _ => Some surrogate_result).

(** ** Events by kind, pages the analyzer does not answer *)

Definition is_analyze (e : event) : bool :=
  match e with EvAnalyze _ _ => true | _ => false end.

Definition is_charge (e : event) : bool :=
  match e with EvChargeCredits _ => true | _ => false end.

(** Does the analyzer answer for page [p] of [document]? *)
Definition answered (self : AddOn) (document : Document) (p : Z) : bool :=
  match analyze_answer self (LargeImageUrl (doc_id document) p) with
  | Some _ => true
  | None => false
  end.

(** The pages that are submitted when the pages [pages] are gone through
    in order: all of them up to and including the first one without an
    answer. *)
Fixpoint submitted_pages (answers : Z -> bool) (pages : list Z) : list Z :=
  match pages with
  | [] => []
  | p :: pages' =>
      p :: (if answers p then submitted_pages answers pages' else [])
  end.

(** The analyzer answers for every page of the clamped range of
    [document]. *)
Definition document_answered
    (self : AddOn) (start_page end_page : Z) (document : Document) : bool :=
  forallb (answered self document)
          (page_interval start_page (Z.min end_page (page_count document))).

(** The call of the analyzer for one page. *)
Definition analyze_event (document : Document) (p : Z) : event :=
  EvAnalyze "prebuilt-layout" (LargeImageUrl (doc_id document) p).

(** The output files of the documents [docs]. *)
Definition output_path (docs : list Document) (path : string) : Prop :=
  exists document,
    In document docs /\
    (path = json_path (doc_id document) \/ path = csv_path (doc_id document)).

(** The three messages of [main] and the two of [validate]. *)
Definition msg_no_documents : string :=
  "It looks like no documents were selected. Search for some or select them and run again.".

Definition msg_no_organization : string := "No organization to charge.".

Definition msg_no_credits : string :=
  "You do not have sufficient AI credits to run this Add-On on this document set".

Definition msg_inverted : string :=
  "The end page you provided is smaller than the start page, try again".

Definition msg_start_page : string :=
  "Your start page is less than 1, please try again".

(** How a run of [main] goes on after [validate]: the outcome, the
    events after those of [validate], and the files at the end. *)
Inductive main_run (self : AddOn) (w : world)
  : outcome unit -> list event -> gmap string pystr -> Prop :=
| run_validate_exits (code : Z) :
    fst (validate self w) = SysExit code ->
    main_run self w (SysExit code) [] (files w)
| run_validate_raises (e : exn) :
    fst (validate self w) = Raised e ->
    main_run self w (Raised e) [] (files w)
| run_no_credits :
    fst (validate self w) = Return false ->
    main_run self w (SysExit 0) [EvSetMessage msg_no_credits] (files w)
| run_inverted :
    fst (validate self w) = Return true ->
    main_end_page self < main_start_page self ->
    main_run self w (SysExit 0) [EvSetMessage msg_inverted] (files w)
| run_start_page :
    fst (validate self w) = Return true ->
    main_start_page self <= main_end_page self ->
    main_start_page self < 1 ->
    main_run self w (SysExit 0) [EvSetMessage msg_start_page] (files w)
| run_documents (r : outcome unit) (calls : list event) (fs : gmap string pystr) :
    fst (validate self w) = Return true ->
    1 <= main_start_page self <= main_end_page self ->
    r = Return tt \/ r = Raised AnalyzerError ->
    forallb is_analyze calls = true ->
    (forall path, ~ output_path (documents self) path -> fs !! path = files w !! path) ->
    main_run self w r (EvAuthenticate :: calls) fs.

(** ** More sample add-ons *)

(** An analyzer that answers for page 1 and page 2 only. *)
Definition addon_analyzer_stops : AddOn :=
  mkAddOn (mkData (Some "json") (Some 1) (Some 4)) (Some 2)
          [mkDocument 11 2; mkDocument 12 10; mkDocument 13 10] (Some 7)
          (fun _ => Charged)
          (fun url => if url_page url <=? 2 then Some sample_result else None).

(** A configuration whose first page is 0. *)
Definition addon_page_zero : AddOn :=
  mkAddOn (mkData (Some "json") (Some 0) (Some 1)) (Some 1)
          [mkDocument 42 5] (Some 7)
          (fun _ => Charged) (fun _ => Some sample_result).

(** An output format the add-on does not know. *)
Definition addon_xml : AddOn :=
  mkAddOn (mkData (Some "xml") (Some 1) (Some 2)) (Some 1)
          [mkDocument 42 5] (Some 7)
          (fun _ => Charged) (fun _ => Some sample_result).

(** No organization to charge. *)
Definition addon_no_organization : AddOn :=
  mkAddOn (mkData (Some "json") (Some 1) (Some 2)) (Some 1)
          [mkDocument 42 5] None
          (fun _ => Charged) (fun _ => Some sample_result).

(** A configuration without [end_page] and one selected document. *)
Definition addon_default_end_page : AddOn :=
  mkAddOn (mkData None None None) (Some 1) [mkDocument 42 5] (Some 7)
          (fun _ => Charged) (fun _ => Some sample_result).

(** Pages 3 to 5 of a document of 1 page and of a document of 4
    pages. *)
Definition addon_mixed_lengths : AddOn :=
  mkAddOn (mkData (Some "json") (Some 3) (Some 5)) (Some 2)
          [mkDocument 11 1; mkDocument 12 4] (Some 7)
          (fun _ => Charged) (fun _ => Some sample_result).

(** * Properties *)

Lemma Zsum_cons (x : Z) (l : list Z) : Zsum (x :: l) = x + Zsum l.
Proof. reflexivity. Qed.

Lemma Zsum_app (l1 l2 : list Z) : Zsum (l1 ++ l2) = Zsum l1 + Zsum l2.
Proof.
  induction l1 as [|x l1 IH]; [reflexivity|].
  rewrite <- app_comm_cons, !Zsum_cons, IH. lia.
Qed.

Ltac run_step :=
  unfold bind, ret, emit, sys_exit, raise, set_message, print, when; simpl.

Lemma drop_trace_app (old new : list event) :
  drop (length old) (old ++ new) = new.
Proof. by rewrite drop_app_length. Qed.

Section Cost.

Variable self : AddOn.

Let start_page := get_default (cfg_start_page (data self)) 1.

(** The loop of [calculate_cost] when [end_page] is set: the running
    total grows by the clamped number of pages of each document, and
    the world is not touched. *)
Lemma cost_loop_set (e : Z) (docs : list Document) (acc : Z) (w : world) :
  cfg_end_page (data self) = Some e ->
  for_fold docs acc
    (fun total_num_pages doc =>
       let start_page := get_default (cfg_start_page (data self)) 1 in
       let end_page := cfg_end_page (data self) in
       let* last_page :=
         match end_page with
         | None => raise TypeError
         | Some end_page =>
             ret (if end_page <=? page_count doc then end_page else page_count doc)
         end in
       let pages_to_analyze := last_page - start_page + 1 in
       ret (total_num_pages + pages_to_analyze)) w
  = (Return (acc + Zsum (map (clamped_pages start_page e) docs)), w).
Proof.
  intros He. rewrite He. revert acc.
  induction docs as [|doc rest IH]; intros acc; cbn [for_fold map].
  - unfold ret. do 2 f_equal. simpl. lia.
  - unfold bind at 1, bind at 1, ret at 1 2.
    rewrite IH. do 2 f_equal.
    rewrite Zsum_cons. unfold clamped_pages at 2. fold start_page.
    destruct (Z.leb_spec e (page_count doc)); lia.
Qed.

Lemma calculate_cost_set (e : Z) (docs : list Document) (w : world) :
  cfg_end_page (data self) = Some e ->
  calculate_cost self docs w
  = (Return (7 * Zsum (map (clamped_pages start_page e) docs)),
     mkWorld (trace w ++ [EvPrint (7 * Zsum (map (clamped_pages start_page e) docs))])
             (files w)).
Proof.
  intros He. unfold calculate_cost, bind at 1.
  pose proof (cost_loop_set e docs 0 w He) as Hloop. cbv zeta in Hloop.
  rewrite Hloop. run_step.
  replace ((0 + Zsum (map (clamped_pages start_page e) docs)) * 7)
    with (7 * Zsum (map (clamped_pages start_page e) docs)) by lia.
  reflexivity.
Qed.

(** Without [end_page] the first comparison raises, so the call faults
    as soon as there is a document; with no document the loop body never
    runs. *)
Lemma calculate_cost_unset_cons (doc : Document) (rest : list Document) (w : world) :
  cfg_end_page (data self) = None ->
  calculate_cost self (doc :: rest) w = (Raised TypeError, w).
Proof.
  intros He. unfold calculate_cost. simpl. rewrite He. reflexivity.
Qed.

Lemma calculate_cost_nil (w : world) :
  calculate_cost self [] w = (Return 0, mkWorld (trace w ++ [EvPrint 0]) (files w)).
Proof. reflexivity. Qed.

End Cost.

(** ** validate *)

Lemma validate_spec (self : AddOn) (w : world) :
  exists (r : outcome bool) (evs : list event),
    validate self w = (r, mkWorld (trace w ++ evs) (files w)) /\
    validate_run self w r evs.
Proof.
  unfold validate.
  destruct (document_count self) as [n|] eqn:Hcount.
  2: { eexists _, _. split; [reflexivity|]. constructor. by left. }
  destruct (truthy (org_id self)) eqn:Horg; cbn [negb].
  2: { eexists _, _. split; [reflexivity|]. constructor. by right. }
  destruct (cfg_end_page (data self)) as [e|] eqn:Hend.
  - unfold bind at 1. rewrite (calculate_cost_set self e _ w Hend).
    set (cost := 7 * _).
    exists (Return (charged (charge_answer self cost))), [EvPrint cost; EvChargeCredits cost].
    split.
    + run_step. rewrite <- app_assoc. by destruct (charge_answer self cost).
    + apply validate_charges; [congruence | done |].
      by rewrite (calculate_cost_set self e _ w Hend).
  - destruct (documents self) as [|doc rest] eqn:Hdocs.
    + exists (Return (charged (charge_answer self 0))), [EvPrint 0; EvChargeCredits 0].
      split.
      * run_step. rewrite <- app_assoc. change (0 * 7) with 0.
        by destruct (charge_answer self 0).
      * apply validate_charges; [congruence | done |]. by rewrite Hdocs.
    + exists (Raised TypeError), []. split.
      * unfold bind at 1. rewrite (calculate_cost_unset_cons self doc rest w Hend).
        rewrite app_nil_r. by destruct w.
      * by apply validate_faults; [|rewrite Hdocs].
Qed.

Lemma validate_events (self : AddOn) (w : world) (r : outcome bool) (evs : list event) :
  validate self w = (r, mkWorld (trace w ++ evs) (files w)) ->
  events_during (validate self) w = evs.
Proof.
  intros H. unfold events_during. rewrite H. simpl. apply drop_trace_app.
Qed.

(** ** Strings *)

Lemma str_app_cons (c : ascii) (s t : string) :
  String c s +:+ t = String c (s +:+ t).
Proof. reflexivity. Qed.

Lemma str_app_nil_l (s : string) : EmptyString +:+ s = s.
Proof. reflexivity. Qed.

Lemma str_length_app (s1 s2 : string) :
  String.length (s1 +:+ s2) = (String.length s1 + String.length s2)%nat.
Proof.
  induction s1 as [|c s1 IH]; [done|].
  rewrite str_app_cons. cbn [String.length]. by rewrite IH.
Qed.

(** ** Flattening *)

Lemma table_cells_loop (cs : list AzCell) (info : table_info) :
  fold_left
    (fun table_info cell =>
       mkTableInfo (page_number table_info)
         (cells table_info
          ++ [mkCellInfo (az_row_index cell) (az_column_index cell) (az_text cell)]))
    cs info
  = mkTableInfo (page_number info) (cells info ++ map cell_info_of cs).
Proof.
  revert info. induction cs as [|cell cs IH]; intros info; cbn [fold_left map].
  - rewrite app_nil_r. by destruct info.
  - rewrite IH. cbn [page_number cells]. by rewrite <- app_assoc.
Qed.

Lemma tables_loop (ts : list AzTable) (acc : list table_info) :
  fold_left
    (fun table_data table =>
       table_data
       ++ [fold_left
             (fun table_info cell =>
                mkTableInfo (page_number table_info)
                  (cells table_info
                   ++ [mkCellInfo (az_row_index cell) (az_column_index cell)
                                  (az_text cell)]))
             (az_cells table) (mkTableInfo (az_page_number table) [])])
    ts acc
  = acc ++ map table_info_of ts.
Proof.
  revert acc. induction ts as [|table ts IH]; intros acc; cbn [fold_left map].
  - by rewrite app_nil_r.
  - rewrite IH, table_cells_loop, <- app_assoc. reflexivity.
Qed.

Lemma get_table_data_map (result : AnalyzeResult) :
  get_table_data result = map table_info_of (tables result).
Proof. exact (tables_loop (tables result) []). Qed.

Lemma convert_cells_loop (t : table_info) (cs : list cell_info) (acc : list (list csv_value)) :
  fold_left
    (fun csv_data cell =>
       csv_data ++ [[CsvInt (page_number t); CsvInt (row_index cell);
                     CsvInt (column_index cell); CsvStr (content cell)]])
    cs acc
  = acc ++ map (cell_row t) cs.
Proof.
  revert acc. induction cs as [|c cs IH]; intros acc; cbn [fold_left map].
  - by rewrite app_nil_r.
  - by rewrite IH, <- app_assoc.
Qed.

Lemma convert_tables_loop (table_data : list table_info) (acc : list (list csv_value)) :
  fold_left
    (fun csv_data table_info =>
       fold_left
         (fun csv_data cell =>
            csv_data ++ [[CsvInt (page_number table_info); CsvInt (row_index cell);
                          CsvInt (column_index cell); CsvStr (content cell)]])
         (cells table_info) csv_data)
    table_data acc
  = acc ++ flat_map (fun t => map (cell_row t) (cells t)) table_data.
Proof.
  revert acc. induction table_data as [|t rest IH]; intros acc; cbn [fold_left flat_map].
  - by rewrite app_nil_r.
  - by rewrite convert_cells_loop, IH, <- app_assoc.
Qed.

Lemma convert_to_csv_flat_map (table_data : list table_info) :
  convert_to_csv table_data
  = flat_map (fun t => map (cell_row t) (cells t)) table_data.
Proof. exact (convert_tables_loop table_data []). Qed.

Lemma convert_to_csv_app (td1 td2 : list table_info) :
  convert_to_csv (td1 ++ td2) = convert_to_csv td1 ++ convert_to_csv td2.
Proof. by rewrite !convert_to_csv_flat_map, flat_map_app. Qed.

(** ** Page ranges *)

Lemma range_count_up (start stop : Z) :
  range start stop = count_up start (Z.to_nat (stop - start)).
Proof.
  unfold range. generalize (Z.to_nat (stop - start)) as n.
  intros n. revert start. induction n as [|n IH]; intros start; [done|].
  cbn [seq map count_up]. f_equal; [simpl; lia|].
  rewrite <- seq_shift, map_map, <- IH.
  apply map_ext. intros i. lia.
Qed.

Lemma In_count_up (first : Z) (n : nat) (p : Z) :
  In p (count_up first n) <-> first <= p < first + Z.of_nat n.
Proof.
  revert first. induction n as [|n IH]; intros first; cbn [count_up In].
  - lia.
  - rewrite IH. lia.
Qed.

Lemma count_up_sorted (first : Z) (n : nat) :
  StronglySorted Z.lt (count_up first n).
Proof.
  revert first. induction n as [|n IH]; intros first; cbn [count_up].
  - constructor.
  - constructor; [apply IH|].
    apply List.Forall_forall. intros p Hp. apply In_count_up in Hp. lia.
Qed.

(** [page_interval first last] lists exactly the pages between [first]
    and [last], each once, in increasing order. *)
Lemma page_interval_spec (first last : Z) :
  StronglySorted Z.lt (page_interval first last) /\
  forall p, In p (page_interval first last) <-> first <= p <= last.
Proof.
  split; [apply count_up_sorted|].
  intros p. unfold page_interval. rewrite In_count_up. lia.
Qed.

(** The bound [main] computes makes [range] end at the last page of the
    clamped range. *)
Lemma main_range_interval (start_page end_page : Z) (document : Document) :
  range start_page
        (if end_page >? page_count document
         then page_count document + 1 else end_page + 1)
  = page_interval start_page (Z.min end_page (page_count document)).
Proof.
  rewrite range_count_up. unfold page_interval. f_equal.
  destruct (Z.gtb_spec end_page (page_count document)); lia.
Qed.

(** ** The loop over the pages of a document *)

Lemma analyze_loop (self : AddOn) (document : Document)
    (pages : list Z) (acc : list table_info) (w : world) :
  (forall p, In p pages ->
     analyze_answer self (LargeImageUrl (doc_id document) p) <> None) ->
  for_fold pages acc
    (fun table_data page_number =>
       let* result :=
         begin_analyze_document_from_url self "prebuilt-layout"
           (LargeImageUrl (doc_id document) page_number) in
       ret (table_data ++ get_table_data result)) w
  = (Return (acc ++ flat_map (page_tables self document) pages),
     mkWorld
       (trace w
        ++ map (fun p => EvAnalyze "prebuilt-layout" (LargeImageUrl (doc_id document) p))
               pages)
       (files w)).
Proof.
  revert acc w. induction pages as [|p pages IH]; intros acc w Hans;
    cbn [for_fold flat_map map].
  - unfold ret. rewrite !app_nil_r. by destruct w.
  - assert (Hp := Hans p (or_introl eq_refl)).
    unfold bind at 1, bind at 1, begin_analyze_document_from_url, bind at 1, emit.
    unfold page_tables at 1.
    destruct (analyze_answer self (LargeImageUrl (doc_id document) p)) as [result|];
      [|done].
    unfold ret at 1 2. rewrite IH by (intros q Hq; apply Hans; by right).
    cbn [trace files]. by rewrite <- !app_assoc.
Qed.

(** ** Writing the CSV file *)

Lemma writerows_spec
    (path : string) (old : pystr) (rows : list (list csv_value)) (w : world) :
  files w !! path = Some old ->
  writerows path rows w
  = (Return tt, mkWorld (trace w) (<[path := old ++ csv_lines rows]> (files w))).
Proof.
  unfold writerows. revert old w.
  induction rows as [|row rows IH]; intros old w Hold; cbn [for_each csv_lines].
  - unfold ret. rewrite app_nil_r, insert_id by done. by destruct w.
  - unfold bind, writerow at 1, append_text, file_text. rewrite Hold. cbn [get_default].
    rewrite (IH (old ++ csv_line row)) by apply lookup_insert_eq.
    cbn [trace files]. by rewrite insert_insert_eq, <- app_assoc.
Qed.

Lemma csv_write_spec (path : string) (rows : list (list csv_value)) (w : world) :
  (do open_append path then
   let* pos := tell path in
   do when (pos =? 0) (writerow path csv_header) then
   writerows path rows) w
  = (Return tt,
     mkWorld (trace w)
       (<[path := text_of (files w) path
                  ++ csv_appended (text_of (files w) path) rows]> (files w))).
Proof.
  unfold bind at 1, open_append. unfold bind at 1, tell. unfold file_text, text_of.
  cbn [files]. rewrite lookup_insert_eq. cbn [get_default].
  set (old := get_default (files w !! path) []).
  unfold csv_appended.
  destruct (Z.of_nat (length old) =? 0) eqn:Hpos.
  - unfold bind at 1, when, writerow, append_text, file_text. cbn [files trace].
    rewrite lookup_insert_eq. cbn [get_default].
    rewrite (writerows_spec path (old ++ csv_line csv_header))
      by (cbn [files]; apply lookup_insert_eq).
    cbn [trace files]. by rewrite !insert_insert_eq, <- app_assoc.
  - unfold bind at 1, when, ret at 1.
    rewrite (writerows_spec path old) by (cbn [files]; apply lookup_insert_eq).
    cbn [trace files]. by rewrite insert_insert_eq.
Qed.

(** ** One document *)

Lemma main_document_spec
    (self : AddOn) (output_format : string) (start_page end_page : Z)
    (document : Document) (w : world) :
  (forall p, In p (page_interval start_page (Z.min end_page (page_count document))) ->
     analyze_answer self (LargeImageUrl (doc_id document) p) <> None) ->
  main_document self output_format start_page end_page document w
  = (Return tt,
     mkWorld (trace w ++ analyzer_calls start_page end_page document)
       (written_files output_format document
          (document_tables self start_page end_page document) (files w))).
Proof.
  intros Hans. unfold main_document. cbv zeta.
  rewrite main_range_interval. unfold bind at 1.
  rewrite (analyze_loop self document _ [] w Hans). cbn [app].
  fold (document_tables self start_page end_page document).
  fold (analyzer_calls start_page end_page document).
  unfold written_files.
  destruct (String.eqb_spec output_format "json") as [->|Hjson].
  - reflexivity.
  - unfold bind at 1, when at 1, ret at 1.
    destruct (String.eqb_spec output_format "csv") as [->|Hcsv].
    + unfold when. fold (csv_path (doc_id document)).
      by rewrite csv_write_spec.
    + reflexivity.
Qed.

(** ** The loop over the documents, and a whole run *)

Lemma documents_loop
    (self : AddOn) (output_format : string) (start_page end_page : Z)
    (docs : list Document) (w : world) :
  (forall url, analyze_answer self url <> None) ->
  for_each docs (main_document self output_format start_page end_page) w
  = (Return tt,
     mkWorld (trace w ++ flat_map (analyzer_calls start_page end_page) docs)
       (files_after self output_format start_page end_page docs (files w))).
Proof.
  intros Hans. unfold files_after. revert w.
  induction docs as [|d docs IH]; intros w; cbn [for_each flat_map fold_left].
  - unfold ret. rewrite app_nil_r. by destruct w.
  - unfold bind. rewrite main_document_spec by (intros; apply Hans).
    rewrite IH. cbn [trace files]. by rewrite <- app_assoc.
Qed.

(** A run whose validation passes, whose range is valid and whose
    analyzer answers: the events of [validate], the authentication, the
    analyzer calls document by document; the files are the output of the
    documents. *)
Lemma main_spec (self : AddOn) (w : world) :
  fst (validate self w) = Return true ->
  1 <= main_start_page self <= main_end_page self ->
  (forall url, analyze_answer self url <> None) ->
  main self w
  = (Return tt,
     mkWorld
       (trace w ++ events_during (validate self) w
        ++ EvAuthenticate
           :: flat_map (analyzer_calls (main_start_page self) (main_end_page self))
                       (documents self))
       (files_after self (main_output_format self)
          (main_start_page self) (main_end_page self) (documents self) (files w))).
Proof.
  intros Hvalid Hrange Hans.
  destruct (validate_spec self w) as (r & evs & Hrun & _).
  rewrite (validate_events self w r evs Hrun).
  rewrite Hrun in Hvalid. cbn [fst] in Hvalid. subst r.
  unfold main. cbv zeta.
  fold (main_start_page self) (main_end_page self) (main_output_format self).
  unfold bind at 1. rewrite Hrun. cbn [negb].
  unfold bind at 1, when at 1, ret at 1.
  destruct (Z.ltb_spec (main_end_page self) (main_start_page self)); [lia|].
  unfold bind at 1, when at 1, ret at 1.
  destruct (Z.ltb_spec (main_start_page self) 1); [lia|].
  unfold bind at 1, when at 1, ret at 1.
  unfold bind at 1, emit. rewrite documents_loop by done.
  cbn [trace files]. by rewrite <- !app_assoc.
Qed.

(** ** File names *)

Lemma str_int_inj (n m : Z) : str_int n = str_int m -> n = m.
Proof.
  unfold str_int. intros H. apply DecimalZ.to_int_inj.
  assert (Hparse : forall k,
             NilZero.int_of_string (NilZero.string_of_int (Z.to_int k))
             = Some (Z.to_int k)).
  { intros k. apply NilZero.isi; destruct k; try discriminate;
      cbn [Z.to_int]; intros [= Hnil];
      by apply (DecimalPos.Unsigned.to_uint_nonnil p). }
  pose proof (Hparse n) as Hn. rewrite H, Hparse in Hn. congruence.
Qed.

Lemma str_app_inv_tail (a b t : string) : a +:+ t = b +:+ t -> a = b.
Proof.
  revert b. induction a as [|c a IH]; intros [|c' b]; rewrite ?str_app_cons, ?str_app_nil_l.
  - done.
  - intros H. apply (f_equal String.length) in H.
    cbn [String.length] in H. rewrite str_length_app in H. lia.
  - intros H. apply (f_equal String.length) in H.
    cbn [String.length] in H. rewrite str_length_app in H. lia.
  - intros [= -> H]. f_equal. by apply IH.
Qed.

Lemma csv_path_inj (a b : Z) : csv_path a = csv_path b -> a = b.
Proof.
  unfold csv_path. intros H. apply str_int_inj.
  apply String.app_inj in H. by apply str_app_inv_tail in H.
Qed.

Lemma json_path_inj (a b : Z) : json_path a = json_path b -> a = b.
Proof.
  unfold json_path. intros H. apply str_int_inj.
  apply String.app_inj in H. by apply str_app_inv_tail in H.
Qed.

(** ** The text of a CSV file after a run *)

Lemma csv_lines_app (rows1 rows2 : list (list csv_value)) :
  csv_lines (rows1 ++ rows2) = csv_lines rows1 ++ csv_lines rows2.
Proof.
  induction rows1 as [|row rows1 IH]; cbn [app csv_lines]; [done|].
  by rewrite IH, <- app_assoc.
Qed.

Lemma csv_line_length (row : list csv_value) :
  (2 <= length (csv_line row))%nat.
Proof.
  unfold csv_line. rewrite length_app. cbn [length]. lia.
Qed.

(** After a CSV write the file is never empty: it holds at least the
    header. *)
Lemma csv_written_nonempty (old : pystr) (rows : list (list csv_value)) :
  (Z.of_nat (length (old ++ csv_appended old rows)) =? 0) = false.
Proof.
  apply Z.eqb_neq. rewrite length_app. unfold csv_appended.
  destruct (Z.eqb_spec (Z.of_nat (length old)) 0) as [Hz|Hnz]; [|lia].
  rewrite length_app. pose proof (csv_line_length csv_header). lia.
Qed.

Lemma csv_appended_app (old : pystr) (rows1 rows2 : list (list csv_value)) :
  csv_appended old rows1
  ++ csv_appended (old ++ csv_appended old rows1) rows2
  = csv_appended old (rows1 ++ rows2).
Proof.
  unfold csv_appended at 2. rewrite csv_written_nonempty.
  unfold csv_appended. by rewrite csv_lines_app, app_nil_l, <- app_assoc.
Qed.

Lemma text_of_insert (fs : gmap string pystr) (path : string) (text : pystr) :
  text_of (<[path := text]> fs) path = text.
Proof. unfold text_of. by rewrite lookup_insert_eq. Qed.

Lemma text_of_insert_ne
    (fs : gmap string pystr) (path path' : string) (text : pystr) :
  path <> path' -> text_of (<[path := text]> fs) path' = text_of fs path'.
Proof. intros Hne. unfold text_of. by rewrite lookup_insert_ne. Qed.

Lemma files_after_csv_text
    (self : AddOn) (start_page end_page : Z) (docs : list Document)
    (fs : gmap string pystr) (id : Z) :
  text_of (files_after self "csv" start_page end_page docs fs) (csv_path id)
  = if existsb (fun document => doc_id document =? id) docs
    then text_of fs (csv_path id)
         ++ csv_appended (text_of fs (csv_path id))
                          (csv_rows_for self start_page end_page id docs)
    else text_of fs (csv_path id).
Proof.
  unfold files_after. revert fs.
  induction docs as [|d docs IH]; intros fs;
    cbn [fold_left existsb csv_rows_for flat_map]; [done|].
  fold (csv_rows_for self start_page end_page id docs).
  rewrite IH. unfold written_files. cbn [String.eqb Ascii.eqb Bool.eqb].
  set (rows := convert_to_csv (document_tables self start_page end_page d)).
  destruct (Z.eqb_spec (doc_id d) id) as [->|Hne]; cbn [orb].
  - rewrite text_of_insert. set (old := text_of fs (csv_path id)).
    destruct (existsb _ docs) eqn:Hmore.
    + by rewrite <- app_assoc, csv_appended_app.
    + assert (Hnone : csv_rows_for self start_page end_page id docs = []).
      { clear -Hmore. induction docs as [|d' docs IH]; [done|].
        cbn [existsb] in Hmore. apply orb_false_elim in Hmore as [Hd Hmore].
        cbn [csv_rows_for flat_map]. rewrite Hd. by apply IH. }
      by rewrite Hnone, app_nil_r.
  - rewrite text_of_insert_ne by (intros Heq; by apply csv_path_inj in Heq).
    reflexivity.
Qed.

(** ** An inverted range *)

(** With [end_page < start_page] no document adds a page to the total:
    every summand is at most 0. *)
Lemma inverted_range_cost (s e : Z) (docs : list Document) :
  e < s -> 7 * Zsum (map (clamped_pages s e) docs) <= 0.
Proof.
  intros Hlt.
  assert (Zsum (map (clamped_pages s e) docs) <= 0); [|lia].
  induction docs as [|doc rest IH]; [done|].
  rewrite map_cons, Zsum_cons. unfold clamped_pages at 1. lia.
Qed.

(** Whenever validation passes and the range is inverted, [main] leaves
    with the message about the range after the events of [validate],
    and these include the call of [charge_credits]. *)
Lemma main_inverted_range (self : AddOn) (w : world) :
  fst (validate self w) = Return true ->
  main_end_page self < main_start_page self ->
  main self w
  = (SysExit 0,
     mkWorld
       (trace w ++ events_during (validate self) w
        ++ [EvSetMessage
              "The end page you provided is smaller than the start page, try again"])
       (files w))
  /\ exists cost, In (EvChargeCredits cost) (events_during (validate self) w).
Proof.
  intros Hvalid Hrange.
  destruct (validate_spec self w) as (r & evs & Hrun & Hcase).
  rewrite (validate_events self w r evs Hrun).
  rewrite Hrun in Hvalid. cbn [fst] in Hvalid. subst r. split.
  - unfold main. cbv zeta.
    fold (main_start_page self) (main_end_page self) (main_output_format self).
    unfold bind at 1. rewrite Hrun. cbn [negb].
    unfold bind at 1, when at 1, ret at 1.
    destruct (Z.ltb_spec (main_end_page self) (main_start_page self)); [|lia].
    unfold bind at 1, when at 1, bind at 1, set_message, emit, sys_exit.
    cbn [trace files]. by rewrite <- app_assoc.
  - inversion Hcase as [| |cost _ _ _ Hr Hevs]. exists cost. right; left; reflexivity.
Qed.

(** ** The decoder on the encoder's output *)

(** *** White space *)

Lemma skip_ws_spaces (n : nat) (s : pystr) : skip_ws (spaces n ++ s) = skip_ws s.
Proof. induction n as [|n IH]; [done|]. exact IH. Qed.

Lemma skip_ws_newline_indent (indent level : nat) (s : pystr) :
  skip_ws (newline_indent indent level ++ s) = skip_ws s.
Proof. exact (skip_ws_spaces (indent * level) s). Qed.

Lemma skip_ws_head (c : N) (s : pystr) :
  is_ws c = false -> skip_ws (c :: s) = c :: s.
Proof. intros H. cbn [skip_ws]. by rewrite H. Qed.

Lemma codes_char_app (c : ascii) (t : pystr) :
  codes (String c EmptyString) ++ t = N_of_ascii c :: t.
Proof. reflexivity. Qed.

(** *** Hexadecimal escapes *)

Lemma hex_value_digit (d : N) : (d < 16)%N -> hex_value (hex_digit d) = Some d.
Proof.
  intros Hd. rewrite <- (N2Nat.id d). assert (Hn : (N.to_nat d < 16)%nat) by lia.
  revert Hn. generalize (N.to_nat d). intros n Hn.
  do 16 (destruct n as [|n]; [reflexivity|]). lia.
Qed.

Lemma decode_hex_digits (n : N) :
  (n < 65536)%N ->
  decode_uXXXX (hex_digit (n / 4096)) (hex_digit (n / 256 mod 16))
               (hex_digit (n / 16 mod 16)) (hex_digit (n mod 16))
  = Some n.
Proof.
  intros Hn. unfold decode_uXXXX.
  rewrite !hex_value_digit;
    [| apply N.mod_lt; lia | apply N.mod_lt; lia | apply N.mod_lt; lia
     | apply N.Div0.div_lt_upper_bound; lia ].
  f_equal.
  assert (E256 : (n / 256 = n / 16 / 16)%N) by (by rewrite N.Div0.div_div).
  assert (E4096 : (n / 4096 = n / 16 / 16 / 16)%N) by (by rewrite !N.Div0.div_div).
  rewrite E256, E4096.
  pose proof (N.div_mod n 16 ltac:(lia)) as H1.
  pose proof (N.div_mod (n / 16) 16 ltac:(lia)) as H2.
  pose proof (N.div_mod (n / 16 / 16) 16 ltac:(lia)) as H3.
  lia.
Qed.

Lemma scanstring_u (h1 h2 h3 h4 : N) (tail : pystr) :
  scanstring (backslash :: 117%N :: h1 :: h2 :: h3 :: h4 :: tail)
  = match decode_uXXXX h1 h2 h3 h4 with
    | Some uni =>
        if high_surrogate uni then after_high_surrogate uni tail
        else prepend uni (scanstring tail)
    | None => None
    end.
Proof. reflexivity. Qed.

Lemma scanstring_hex4 (uni : N) (tail : pystr) :
  (uni < 65536)%N ->
  scanstring (hex4 uni ++ tail)
  = if high_surrogate uni then after_high_surrogate uni tail
    else prepend uni (scanstring tail).
Proof.
  intros Huni. unfold hex4. cbn [app].
  by rewrite scanstring_u, decode_hex_digits.
Qed.

Lemma after_high_surrogate_u (uni h1 h2 h3 h4 : N) (tail : pystr) :
  after_high_surrogate uni (backslash :: 117%N :: h1 :: h2 :: h3 :: h4 :: tail)
  = match decode_uXXXX h1 h2 h3 h4 with
    | Some uni2 =>
        if low_surrogate uni2
        then prepend (join_surrogates uni uni2) (scanstring tail)
        else prepend uni
               (scanstring (backslash :: 117%N :: h1 :: h2 :: h3 :: h4 :: tail))
    | None => None
    end.
Proof. reflexivity. Qed.

Lemma after_high_surrogate_hex4 (uni uni2 : N) (tail : pystr) :
  (uni2 < 65536)%N ->
  after_high_surrogate uni (hex4 uni2 ++ tail)
  = if low_surrogate uni2
    then prepend (join_surrogates uni uni2) (scanstring tail)
    else prepend uni (scanstring (hex4 uni2 ++ tail)).
Proof.
  intros Huni. unfold hex4. cbn [app].
  by rewrite after_high_surrogate_u, decode_hex_digits.
Qed.

(** What does not start with a backslash is not looked at twice. *)
Lemma after_high_surrogate_plain (uni c : N) (tail : pystr) :
  c <> 92%N ->
  after_high_surrogate uni (c :: tail) = prepend uni (scanstring (c :: tail)).
Proof.
  intros Hc. apply N.eqb_neq in Hc. unfold after_high_surrogate.
  destruct tail as [|u r2]; [reflexivity|]. by rewrite Hc.
Qed.

(** *** Strings *)

Lemma scanstring_literal (c : N) (tail : pystr) :
  c <> 34%N -> c <> 92%N -> (32 <= c)%N ->
  scanstring (c :: tail) = prepend c (scanstring tail).
Proof.
  intros H34 H92 H32. cbn [scanstring].
  apply N.eqb_neq in H34, H92. apply N.ltb_ge in H32.
  by rewrite H34, H92, H32.
Qed.

(** The two halves of the pair the encoder writes for a code point from
    0x10000 on. *)
Lemma surrogate_pair (c : N) :
  (65536 <= c < 1114112)%N ->
  let n := (c - 65536)%N in
  let s1 := (55296 + (n / 1024) mod 1024)%N in
  let s2 := (56320 + n mod 1024)%N in
  (s1 < 65536)%N /\ (s2 < 65536)%N /\
  high_surrogate s1 = true /\ low_surrogate s2 = true /\
  low_surrogate s1 = false /\
  join_surrogates s1 s2 = c.
Proof.
  intros Hc n s1 s2.
  assert (Hn : (n < 1048576)%N) by (unfold n; lia).
  assert (Hq : (n / 1024 < 1024)%N) by (apply N.Div0.div_lt_upper_bound; lia).
  assert (Hm : ((n / 1024) mod 1024 = n / 1024)%N) by (by apply N.mod_small).
  assert (Hr : (n mod 1024 < 1024)%N) by (apply N.mod_lt; lia).
  pose proof (N.div_mod n 1024 ltac:(lia)) as Hdiv.
  unfold s1, s2, high_surrogate, low_surrogate, join_surrogates. rewrite Hm.
  set (q := (n / 1024)%N) in *. set (r := (n mod 1024)%N) in *.
  clearbody q r.
  repeat split; try lia;
    rewrite ?andb_true_iff, ?andb_false_iff, ?N.leb_le, ?N.leb_gt; lia.
Qed.

(** The escape of a code point is read back as that code point, provided
    that a high surrogate is not taken for the first half of a pair. *)
Lemma scanstring_escape_char (c : N) (tail : pystr) :
  (c < 1114112)%N ->
  (high_surrogate c = true ->
   after_high_surrogate c tail = prepend c (scanstring tail)) ->
  scanstring (escape_char c ++ tail) = prepend c (scanstring tail).
Proof.
  intros Hc Hhigh. unfold escape_char.
  destruct (N.eqb_spec c 34) as [->|H34]; [reflexivity|].
  destruct (N.eqb_spec c 92) as [->|H92]; [reflexivity|].
  destruct (N.eqb_spec c 10) as [->|H10]; [reflexivity|].
  destruct (N.eqb_spec c 13) as [->|H13]; [reflexivity|].
  destruct (N.eqb_spec c 9) as [->|H9]; [reflexivity|].
  destruct (N.eqb_spec c 8) as [->|H8]; [reflexivity|].
  destruct (N.eqb_spec c 12) as [->|H12]; [reflexivity|].
  destruct (N.ltb_spec c 32) as [H32|H32]; cbn [orb].
  - rewrite (proj2 (N.ltb_lt c 65536)) by lia.
    rewrite scanstring_hex4 by lia.
    destruct (high_surrogate c) eqn:Hh; [by apply Hhigh | reflexivity].
  - destruct (N.ltb_spec 126 c) as [H126|H126].
    + destruct (N.ltb_spec c 65536) as [Hbmp|Hbmp].
      * rewrite scanstring_hex4 by lia.
        destruct (high_surrogate c) eqn:Hh; [by apply Hhigh | reflexivity].
      * destruct (surrogate_pair c ltac:(lia)) as (H1 & H2 & Hh1 & Hl2 & _ & Hjoin).
        cbv zeta in *. rewrite <- app_assoc, scanstring_hex4, Hh1 by done.
        by rewrite after_high_surrogate_hex4, Hl2, Hjoin.
    + cbn [app]. apply scanstring_literal; [done | done | lia].
Qed.

(** The escape of a code point that is not a low surrogate does not
    complete a pair. *)
Lemma after_high_surrogate_escape_char (uni c : N) (tail : pystr) :
  (c < 1114112)%N -> low_surrogate c = false ->
  after_high_surrogate uni (escape_char c ++ tail)
  = prepend uni (scanstring (escape_char c ++ tail)).
Proof.
  intros Hc Hlow. unfold escape_char.
  destruct (N.eqb_spec c 34) as [->|H34]; [reflexivity|].
  destruct (N.eqb_spec c 92) as [->|H92]; [reflexivity|].
  destruct (N.eqb_spec c 10) as [->|H10]; [reflexivity|].
  destruct (N.eqb_spec c 13) as [->|H13]; [reflexivity|].
  destruct (N.eqb_spec c 9) as [->|H9]; [reflexivity|].
  destruct (N.eqb_spec c 8) as [->|H8]; [reflexivity|].
  destruct (N.eqb_spec c 12) as [->|H12]; [reflexivity|].
  assert (Hhex : (c < 65536)%N ->
            after_high_surrogate uni (hex4 c ++ tail)
            = prepend uni (scanstring (hex4 c ++ tail))).
  { intros Hbmp. by rewrite after_high_surrogate_hex4, Hlow. }
  destruct (N.ltb_spec c 32) as [H32|H32]; cbn [orb].
  - rewrite (proj2 (N.ltb_lt c 65536)) by lia. apply Hhex. lia.
  - destruct (N.ltb_spec 126 c) as [H126|H126].
    + destruct (N.ltb_spec c 65536) as [Hbmp|Hbmp]; [by apply Hhex|].
      destruct (surrogate_pair c ltac:(lia)) as (H1 & _ & _ & _ & Hl1 & _).
      cbv zeta in *. rewrite <- app_assoc.
      by rewrite after_high_surrogate_hex4, Hl1.
    + cbn [app]. by apply after_high_surrogate_plain.
Qed.

Lemma code_points_cons (c : N) (s : pystr) :
  code_points (c :: s) = true <-> (c < 1114112)%N /\ code_points s = true.
Proof.
  unfold code_points. cbn [forallb]. by rewrite andb_true_iff, N.ltb_lt.
Qed.

(** The escape of a surrogate is its [\u] escape. *)
Lemma escape_char_surrogate (c : N) :
  (55296 <= c <= 57343)%N -> escape_char c = hex4 c.
Proof.
  intros Hc. unfold escape_char.
  rewrite !(proj2 (N.eqb_neq c _)) by lia.
  rewrite (proj2 (N.ltb_ge c 32)), (proj2 (N.ltb_lt 126 c)),
    (proj2 (N.ltb_lt c 65536)) by lia.
  reflexivity.
Qed.

Lemma surrogate_range (c : N) :
  (high_surrogate c = true <-> (55296 <= c <= 56319)%N) /\
  (low_surrogate c = true <-> (56320 <= c <= 57343)%N).
Proof.
  unfold high_surrogate, low_surrogate.
  rewrite !andb_true_iff, !N.leb_le. tauto.
Qed.

(** What the decoder makes of an encoded string: the halves of a pair
    that the string held as two code points come back as one. *)
Lemma scanstring_escape_chars (s rest : pystr) :
  code_points s = true ->
  scanstring (escape_chars s ++ dquote :: rest) = Some (join_pairs s, rest).
Proof.
  assert (Hall : forall (n : nat) (s : pystr),
             (length s <= n)%nat -> code_points s = true ->
             scanstring (escape_chars s ++ dquote :: rest)
             = Some (join_pairs s, rest)).
  { clear s. induction n as [|n IH]; intros s Hlen Hcp.
    { destruct s; [reflexivity | cbn [length] in Hlen; lia]. }
    destruct s as [|c s]; [reflexivity|].
    apply code_points_cons in Hcp as [Hc Hcp]. cbn [length] in Hlen.
    cbn [escape_chars]. rewrite <- app_assoc.
    destruct s as [|d s].
    { rewrite scanstring_escape_char; [reflexivity | done |].
      intros _. by apply after_high_surrogate_plain. }
    pose proof Hcp as Hcpd. apply code_points_cons in Hcp as [Hd Hcp].
    cbn [length] in Hlen. cbn [join_pairs].
    destruct (high_surrogate c) eqn:Hhigh; cbn [andb];
      [destruct (low_surrogate d) eqn:Hlow|].
    - apply surrogate_range in Hhigh. apply surrogate_range in Hlow.
      cbn [escape_chars]. rewrite <- app_assoc.
      rewrite (escape_char_surrogate c), (escape_char_surrogate d) by lia.
      rewrite scanstring_hex4 by lia.
      rewrite (proj2 (proj1 (surrogate_range c))) by lia.
      rewrite after_high_surrogate_hex4 by lia.
      rewrite (proj2 (proj2 (surrogate_range d))) by lia.
      rewrite (IH s) by (done || lia). reflexivity.
    - rewrite scanstring_escape_char, (IH (d :: s));
        [reflexivity | cbn [length]; lia | done | done |].
      intros _. cbn [escape_chars]. rewrite <- app_assoc.
      by apply after_high_surrogate_escape_char.
    - rewrite scanstring_escape_char, (IH (d :: s));
        [reflexivity | cbn [length]; lia | done | done |].
      intros Hh. congruence. }
  intros Hcp. by apply (Hall (length s)).
Qed.

Lemma join_pairs_cons (c d : N) (s : pystr) :
  join_pairs (c :: d :: s)
  = if high_surrogate c && low_surrogate d
    then join_surrogates c d :: join_pairs s
    else c :: join_pairs (d :: s).
Proof. reflexivity. Qed.

Lemma no_surrogate_pair_cons (c d : N) (s : pystr) :
  no_surrogate_pair (c :: d :: s)
  = negb (high_surrogate c && low_surrogate d) && no_surrogate_pair (d :: s).
Proof. reflexivity. Qed.

(** A string is read back as it was written exactly when it holds no
    such pair. *)
Lemma join_pairs_id (s : pystr) :
  join_pairs s = s <-> no_surrogate_pair s = true.
Proof.
  induction s as [|c s IH]; [done|].
  destruct s as [|d s].
  { cbn [join_pairs no_surrogate_pair]. by rewrite andb_false_r. }
  rewrite join_pairs_cons, no_surrogate_pair_cons.
  destruct (high_surrogate c && low_surrogate d) eqn:Hpair; cbn [negb andb].
  - split; [|discriminate]. intros [= Hc _]. exfalso.
    apply andb_true_iff in Hpair as [Hhigh Hlow].
    apply surrogate_range in Hhigh. apply surrogate_range in Hlow.
    unfold join_surrogates in Hc. lia.
  - destruct IH as [IH1 IH2]. split.
    + intros [= H]. by apply IH1.
    + intros H. f_equal. by apply IH2.
Qed.

Lemma encode_basestring_ascii_app (s rest : pystr) :
  encode_basestring_ascii s ++ rest
  = dquote :: escape_chars s ++ dquote :: rest.
Proof.
  unfold encode_basestring_ascii. cbn [app]. by rewrite <- app_assoc.
Qed.

(** *** Integers *)

Lemma number_end_not_float (s : pystr) : number_end s = true -> starts_float s = false.
Proof.
  destruct s as [|c [|d r]]; try reflexivity.
  cbn [number_end starts_float]. intros H.
  apply andb_true_iff in H as [_ H]. apply negb_true_iff in H.
  apply orb_false_iff in H as [H H69]. apply orb_false_iff in H as [H46 H101].
  by rewrite H46, H101, H69.
Qed.

Lemma scan_digits_string_of_uint (d : uint) (rest : pystr) :
  number_end rest = true ->
  scan_digits (codes (NilEmpty.string_of_uint d) ++ rest) = (d, rest).
Proof.
  intros Hend.
  induction d as [|d IH|d IH|d IH|d IH|d IH|d IH|d IH|d IH|d IH|d IH];
    cbn [NilEmpty.string_of_uint codes app];
    try (cbn [scan_digits]; rewrite IH; reflexivity).
  destruct rest as [|c r]; [reflexivity|].
  cbn [number_end] in Hend. apply andb_true_iff in Hend as [Hd _].
  apply negb_true_iff in Hd. unfold is_digit in Hd.
  cbn [scan_digits]. by destruct (digit_of c).
Qed.

(** The decimal numeral of a positive number starts with a digit from 1
    to 9. *)
Lemma to_uint_head (p : positive) :
  exists (c : ascii) (s : string),
    NilEmpty.string_of_uint (Pos.to_uint p) = String c s /\
    is_digit (N_of_ascii c) = true /\
    (N_of_ascii c =? 48)%N = false /\ (N_of_ascii c =? 45)%N = false.
Proof.
  assert (Hnorm : Pos.to_uint p = unorm (Pos.to_uint p)).
  { rewrite <- DecimalPos.Unsigned.to_of, DecimalPos.Unsigned.of_to. reflexivity. }
  pose proof (DecimalPos.Unsigned.to_uint_nonzero p) as Hnz.
  pose proof (DecimalPos.Unsigned.to_uint_nonnil p) as Hnn.
  destruct (Pos.to_uint p) as [|d|d|d|d|d|d|d|d|d|d] eqn:Hp; try done;
    try (eexists _, _; split; [reflexivity|]; repeat split; reflexivity).
  exfalso. unfold unorm in Hnorm.
  pose proof (nzhead_nonzero (D0 d)) as Hhead.
  destruct (nzhead (D0 d)) eqn:Hh; congruence.
Qed.

Lemma str_int_pos (p : positive) :
  str_int (Z.pos p) = NilEmpty.string_of_uint (Pos.to_uint p).
Proof.
  unfold str_int. cbn [Z.to_int NilZero.string_of_int NilZero.string_of_uint].
  pose proof (DecimalPos.Unsigned.to_uint_nonnil p).
  by destruct (Pos.to_uint p).
Qed.

Lemma str_int_neg (p : positive) :
  str_int (Z.neg p) = String "-" (NilEmpty.string_of_uint (Pos.to_uint p)).
Proof.
  unfold str_int. cbn [Z.to_int NilZero.string_of_int NilZero.string_of_uint].
  pose proof (DecimalPos.Unsigned.to_uint_nonnil p).
  by destruct (Pos.to_uint p).
Qed.

Lemma match_integer_to_uint (p : positive) (rest : pystr) :
  number_end rest = true ->
  match_integer (codes (NilEmpty.string_of_uint (Pos.to_uint p)) ++ rest)
  = Some (Pos.to_uint p, rest).
Proof.
  intros Hend.
  pose proof (scan_digits_string_of_uint (Pos.to_uint p) rest Hend) as Hscan.
  destruct (to_uint_head p) as (c & s & Hs & Hdigit & Hzero & _).
  rewrite Hs in *. cbn [codes app] in *.
  unfold match_integer. by rewrite Hzero, Hdigit, Hscan.
Qed.

Lemma match_number_minus (s : pystr) :
  match_number (45%N :: s)
  = match match_integer s with
    | Some (d, rest) =>
        if starts_float rest then None
        else Some (PyInt (Z.of_int (Neg d)), rest)
    | None => None
    end.
Proof. reflexivity. Qed.

Lemma match_number_plain (c : N) (s : pystr) :
  (c =? 45)%N = false ->
  match_number (c :: s)
  = match match_integer (c :: s) with
    | Some (d, rest) =>
        if starts_float rest then None
        else Some (PyInt (Z.of_int (Pos d)), rest)
    | None => None
    end.
Proof. intros H. unfold match_number. by rewrite H. Qed.

Lemma match_number_str_int (n : Z) (rest : pystr) :
  number_end rest = true ->
  match_number (codes (str_int n) ++ rest) = Some (PyInt n, rest).
Proof.
  intros Hend. pose proof (number_end_not_float rest Hend) as Hfloat.
  destruct n as [|p|p].
  - change (codes (str_int 0) ++ rest) with (48%N :: rest).
    rewrite match_number_plain by reflexivity.
    change (match_integer (48%N :: rest)) with (Some (D0 Nil, rest)).
    cbv iota beta. by rewrite Hfloat.
  - rewrite str_int_pos.
    pose proof (match_integer_to_uint p rest Hend) as Hint.
    destruct (to_uint_head p) as (c & s & Hs & _ & _ & Hminus).
    rewrite Hs in *. cbn [codes app] in *.
    rewrite match_number_plain, Hint, Hfloat by done.
    do 3 f_equal.
    change (Z.of_int (Pos (Pos.to_uint p))) with (Z.of_int (Z.to_int (Z.pos p))).
    apply DecimalZ.of_to.
  - rewrite str_int_neg. cbn [codes app].
    change (N_of_ascii "-") with 45%N. rewrite match_number_minus.
    rewrite (match_integer_to_uint p rest Hend), Hfloat.
    do 3 f_equal.
    change (Z.of_int (Neg (Pos.to_uint p))) with (Z.of_int (Z.to_int (Z.neg p))).
    apply DecimalZ.of_to.
Qed.

(** *** The first character of an encoded value *)

Lemma digit_head (c : ascii) :
  is_digit (N_of_ascii c) = true ->
  is_ws (N_of_ascii c) = false /\ (N_of_ascii c =? 93)%N = false /\
  forall fuel r,
    scan_once (S fuel) (N_of_ascii c :: r) = match_number (N_of_ascii c :: r).
Proof.
  destruct c as [[] [] [] [] [] [] [] []]; intros H; try discriminate H;
    repeat split; reflexivity.
Qed.

Lemma str_int_head (n : Z) :
  exists (c : N) (s : pystr),
    codes (str_int n) = c :: s /\
    is_ws c = false /\ (c =? 93)%N = false /\
    forall fuel r, scan_once (S fuel) (c :: r) = match_number (c :: r).
Proof.
  destruct n as [|p|p].
  - exists 48%N, []. repeat split; reflexivity.
  - rewrite str_int_pos.
    destruct (to_uint_head p) as (c & s & Hs & Hdigit & _).
    exists (N_of_ascii c), (codes s). split; [by rewrite Hs|]. by apply digit_head.
  - rewrite str_int_neg. eexists _, _. repeat split; reflexivity.
Qed.

Lemma iterencode_head (indent level : nat) (o : pyval) :
  exists (c : N) (s : pystr),
    iterencode indent level o = c :: s /\
    is_ws c = false /\ (c =? 93)%N = false.
Proof.
  destruct o as [|[]|n|s|[|first rest]|[|[key first] rest]];
    try (eexists _, _; repeat split; reflexivity).
  destruct (str_int_head n) as (c & s & Hs & Hws & Hb & _). by exists c, s.
Qed.

Lemma iterencode_length (indent level : nat) (o : pyval) :
  (1 <= length (iterencode indent level o))%nat.
Proof.
  destruct (iterencode_head indent level o) as (c & s & -> & _).
  cbn [length]. lia.
Qed.

Lemma skip_ws_iterencode (indent level : nat) (o : pyval) (rest : pystr) :
  skip_ws (iterencode indent level o ++ rest) = iterencode indent level o ++ rest.
Proof.
  destruct (iterencode_head indent level o) as (c & s & -> & Hws & _).
  cbn [app]. by apply skip_ws_head.
Qed.

(** *** Atoms *)

Lemma scan_once_int (fuel : nat) (n : Z) (rest : pystr) :
  number_end rest = true ->
  scan_once (S fuel) (codes (str_int n) ++ rest) = Some (PyInt n, rest).
Proof.
  intros Hend. rewrite <- (match_number_str_int n rest Hend).
  destruct (str_int_head n) as (c & s & -> & _ & _ & Hscan).
  cbn [app]. apply Hscan.
Qed.

Lemma scan_once_quote (fuel : nat) (r : pystr) :
  scan_once (S fuel) (dquote :: r)
  = match scanstring r with
    | Some (str, rest) => Some (PyStr str, rest)
    | None => None
    end.
Proof. reflexivity. Qed.

Lemma scan_once_str (fuel : nat) (s rest : pystr) :
  code_points s = true ->
  scan_once (S fuel) (encode_basestring_ascii s ++ rest)
  = Some (PyStr (join_pairs s), rest).
Proof.
  intros Hs.
  by rewrite encode_basestring_ascii_app, scan_once_quote, scanstring_escape_chars.
Qed.

(** *** Dictionaries are rebuilt as they were *)

Lemma dict_set_fresh (d : list (pystr * pyval)) (key : pystr) (value : pyval) :
  key ∉ map fst d -> dict_set d key value = d ++ [(key, value)].
Proof.
  induction d as [|[k v] d IH]; intros Hfresh; cbn [dict_set app]; [done|].
  cbn [map fst] in Hfresh. apply not_elem_of_cons in Hfresh as [Hne Hfresh].
  rewrite bool_decide_eq_false_2 by done.
  by rewrite IH.
Qed.

Lemma dict_nodup_from (acc pairs : list (pystr * pyval)) :
  NoDup (map fst (acc ++ pairs)) ->
  fold_left (fun d '(key, value) => dict_set d key value) pairs acc = acc ++ pairs.
Proof.
  revert acc. induction pairs as [|[k v] pairs IH]; intros acc Hnd; cbn [fold_left].
  - by rewrite app_nil_r.
  - rewrite dict_set_fresh.
    + rewrite IH; rewrite <- app_assoc; [reflexivity | exact Hnd].
    + rewrite map_app in Hnd. cbn [map fst] in Hnd.
      apply NoDup_app in Hnd as (_ & Hdisjoint & _).
      intros Hin. apply (Hdisjoint k Hin). left.
Qed.

Lemma dict_nodup (pairs : list (pystr * pyval)) :
  NoDup (map fst pairs) -> dict pairs = pairs.
Proof. intros Hnd. exact (dict_nodup_from [] pairs Hnd). Qed.

(** *** Lists and dictionaries *)

Lemma scan_once_open_list (fuel : nat) (r : pystr) :
  scan_once (S fuel) (91%N :: r)
  = match skip_ws r with
    | c' :: r' =>
        if (c' =? 93)%N then Some (PyList [], r')
        else
          match JSONArray fuel (c' :: r') with
          | Some (values, rest) => Some (PyList values, rest)
          | None => None
          end
    | [] => None
    end.
Proof. reflexivity. Qed.

Lemma scan_once_open_dict (fuel : nat) (r : pystr) :
  scan_once (S fuel) (123%N :: r)
  = match skip_ws r with
    | c' :: r' =>
        if (c' =? 125)%N then Some (PyDict [], r')
        else if (c' =? 34)%N then
          match JSONObject fuel r' with
          | Some (pairs, rest) => Some (PyDict (dict pairs), rest)
          | None => None
          end
        else None
    | [] => None
    end.
Proof. reflexivity. Qed.

Lemma JSONArray_eq (fuel : nat) (s : pystr) :
  JSONArray (S fuel) s
  = match scan_once fuel s with
    | Some (value, rest) =>
        match skip_ws rest with
        | c :: r =>
            if (c =? 93)%N then Some ([value], r)
            else if (c =? 44)%N then
              match JSONArray fuel (skip_ws r) with
              | Some (values, rest') => Some (value :: values, rest')
              | None => None
              end
            else None
        | [] => None
        end
    | None => None
    end.
Proof. reflexivity. Qed.

Lemma JSONObject_eq (fuel : nat) (s : pystr) :
  JSONObject (S fuel) s
  = match scanstring s with
    | Some (key, rest) =>
        match skip_ws rest with
        | colon :: r =>
            if (colon =? 58)%N then
              match scan_once fuel (skip_ws r) with
              | Some (value, rest') =>
                  match skip_ws rest' with
                  | c :: r' =>
                      if (c =? 125)%N then Some ([(key, value)], r')
                      else if (c =? 44)%N then
                        match skip_ws r' with
                        | q :: r'' =>
                            if (q =? 34)%N then
                              match JSONObject fuel r'' with
                              | Some (pairs, rest'') =>
                                  Some ((key, value) :: pairs, rest'')
                              | None => None
                              end
                            else None
                        | [] => None
                        end
                      else None
                  | [] => None
                  end
              | None => None
              end
            else None
        | [] => None
        end
    | None => None
    end.
Proof. reflexivity. Qed.

Lemma scan_once_list_value
    (fuel indent lv lv' : nat) (o : pyval) (tail : pystr) :
  scan_once (S fuel)
    (91%N :: newline_indent indent lv ++ iterencode indent lv' o ++ tail)
  = match JSONArray fuel (iterencode indent lv' o ++ tail) with
    | Some (values, rest) => Some (PyList values, rest)
    | None => None
    end.
Proof.
  rewrite scan_once_open_list, skip_ws_newline_indent, skip_ws_iterencode.
  destruct (iterencode_head indent lv' o) as (c & s & -> & _ & Hb).
  cbn [app]. rewrite Hb. reflexivity.
Qed.

Lemma scan_once_dict_key
    (fuel indent lv : nat) (key tail : pystr) :
  scan_once (S fuel)
    (123%N :: newline_indent indent lv ++ encode_basestring_ascii key ++ tail)
  = match JSONObject fuel (escape_chars key ++ dquote :: tail) with
    | Some (pairs, rest) => Some (PyDict (dict pairs), rest)
    | None => None
    end.
Proof.
  rewrite scan_once_open_dict, skip_ws_newline_indent, encode_basestring_ascii_app.
  reflexivity.
Qed.

Lemma newline_indent_length (indent level : nat) :
  (1 <= length (newline_indent indent level))%nat.
Proof. unfold newline_indent. cbn [length]. lia. Qed.

(** The items of a list, from the first one to the closing bracket. *)
Lemma JSONArray_items (indent level close : nat) (xs : list pyval) :
  Forall decodes xs -> Forall py_wf xs ->
  forall (x : pyval) (fuel : nat) (rest : pystr),
    decodes x -> py_wf x ->
    (length
       (iterencode indent level x
        ++ encode_more (iterencode indent level) (newline_indent indent level) xs)
     < fuel)%nat ->
    JSONArray fuel
      (iterencode indent level x
       ++ encode_more (iterencode indent level) (newline_indent indent level) xs
       ++ newline_indent indent close ++ codes "]" ++ rest)
    = Some (py_join x :: map py_join xs, rest).
Proof.
  induction xs as [|y ys IH]; intros Hdec Hwf x fuel rest Hx Hwfx Hlen;
    (destruct fuel as [|fuel]; [lia|]); rewrite JSONArray_eq;
    rewrite length_app in Hlen; cbn [encode_more] in *.
  - rewrite app_nil_l, Hx; [| done | lia | reflexivity].
    rewrite skip_ws_newline_indent. reflexivity.
  - apply Forall_cons in Hdec as [Hy Hdec]. apply Forall_cons in Hwf as [Hwfy Hwf].
    rewrite <- !app_assoc.
    rewrite Hx; [| done | lia | reflexivity].
    rewrite codes_char_app.
    rewrite skip_ws_head by reflexivity.
    change (N_of_ascii "," =? 93)%N with false.
    change (N_of_ascii "," =? 44)%N with true.
    cbv iota. rewrite skip_ws_newline_indent, skip_ws_iterencode.
    rewrite codes_char_app in Hlen.
    cbn [length] in Hlen. rewrite length_app in Hlen.
    pose proof (newline_indent_length indent level).
    rewrite (IH Hdec Hwf y fuel rest Hy Hwfy) by lia.
    reflexivity.
Qed.

(** The items of a dictionary, from the first key (its opening quote
    already read) to the closing brace. *)
Lemma JSONObject_pairs (indent level close : nat) (ps : list (pystr * pyval)) :
  Forall (fun item => decodes (snd item)) ps ->
  Forall (fun item => code_points (fst item) = true) ps ->
  Forall (fun item => py_wf (snd item)) ps ->
  forall (key : pystr) (value : pyval) (fuel : nat) (rest : pystr),
    decodes value -> code_points key = true -> py_wf value ->
    (length
       (iterencode indent level value
        ++ encode_more (encode_item indent level) (newline_indent indent level) ps)
     < fuel)%nat ->
    JSONObject fuel
      (escape_chars key
       ++ dquote
          :: codes ": " ++ iterencode indent level value
             ++ encode_more (encode_item indent level)
                            (newline_indent indent level) ps
             ++ newline_indent indent close ++ codes "}" ++ rest)
    = Some ((join_pairs key, py_join value) :: map py_join_item ps, rest).
Proof.
  induction ps as [|[k2 v2] ps IH];
    intros Hdec Hkeys Hwf key value fuel rest Hv Hkey Hwfv Hlen;
    (destruct fuel as [|fuel]; [lia|]); rewrite JSONObject_eq;
    rewrite scanstring_escape_chars by done;
    change (codes ": " ++ ?t) with (58%N :: 32%N :: t);
    rewrite (skip_ws_head 58%N) by reflexivity;
    change (58 =? 58)%N with true; cbv iota;
    change (skip_ws (32%N :: ?t)) with (skip_ws t);
    rewrite skip_ws_iterencode;
    rewrite length_app in Hlen; cbn [encode_more] in *.
  - rewrite app_nil_l, Hv; [| done | lia | reflexivity].
    rewrite skip_ws_newline_indent. reflexivity.
  - apply Forall_cons in Hdec as [Hv2 Hdec]. apply Forall_cons in Hwf as [Hwf2 Hwf].
    apply Forall_cons in Hkeys as [Hk2 Hkeys].
    cbn [fst snd] in Hv2, Hwf2, Hk2. unfold encode_item at 1.
    rewrite <- !app_assoc.
    rewrite Hv; [| done | lia | reflexivity].
    rewrite codes_char_app.
    rewrite skip_ws_head by reflexivity.
    change (N_of_ascii "," =? 125)%N with false.
    change (N_of_ascii "," =? 44)%N with true.
    cbv iota. rewrite skip_ws_newline_indent, encode_basestring_ascii_app.
    rewrite (skip_ws_head dquote) by reflexivity.
    change (dquote =? 34)%N with true. cbv iota.
    unfold encode_item at 1 in Hlen.
    rewrite codes_char_app in Hlen.
    cbn [length] in Hlen. rewrite !length_app in Hlen.
    rewrite (IH Hdec Hkeys Hwf k2 v2 fuel rest Hv2 Hk2 Hwf2).
    + reflexivity.
    + rewrite !length_app in *. lia.
Qed.

(** The encoding of every well-formed value is read back, with the
    pairs of its strings joined. *)
Lemma decodes_all (o : pyval) : decodes o.
Proof.
  induction o as [|b|n|s|items IH|items IH] using pyval_ind;
    intros indent level fuel rest Hwf Hlen Hend;
    match type of Hlen with
    | (length (iterencode _ _ ?o) <= _)%nat =>
        pose proof (iterencode_length indent level o) as Hpos
    end;
    (destruct fuel as [|fuel]; [lia|]).
  - reflexivity.
  - destruct b; reflexivity.
  - by apply scan_once_int.
  - apply scan_once_str. by inversion Hwf.
  - inversion Hwf as [| | | |items' Hwfs|]; subst items'.
    destruct items as [|x xs]; [reflexivity|].
    apply Forall_cons in IH as [Hx IH]. apply Forall_cons in Hwfs as [Hwfx Hwfs].
    cbn [iterencode] in *.
    rewrite <- !app_assoc, codes_char_app.
    change (N_of_ascii "[") with 91%N.
    rewrite scan_once_list_value.
    rewrite (JSONArray_items indent (S level) level xs IH Hwfs x fuel rest Hx Hwfx);
      [reflexivity|].
    rewrite codes_char_app in Hlen.
    cbn [length] in Hlen.
    rewrite length_app, app_assoc, length_app in Hlen.
    pose proof (newline_indent_length indent (S level)). lia.
  - inversion Hwf as [| | | | |items' Hnd Hkeys Hwfs]; subst items'.
    destruct items as [|[key value] ps]; [reflexivity|].
    apply Forall_cons in IH as [Hv IH]. apply Forall_cons in Hwfs as [Hwfv Hwfs].
    apply Forall_cons in Hkeys as [Hkey Hkeys].
    cbn [fst snd] in Hv, Hwfv, Hkey. cbn [iterencode] in *.
    fold (encode_item indent (S level)) in *.
    rewrite <- !app_assoc, codes_char_app.
    change (N_of_ascii "{") with 123%N.
    rewrite scan_once_dict_key.
    rewrite (JSONObject_pairs indent (S level) level ps IH Hkeys Hwfs key value
               fuel rest Hv Hkey Hwfv).
    + by rewrite dict_nodup by (cbn [map fst]; by rewrite map_map).
    + rewrite codes_char_app in Hlen.
      cbn [length] in Hlen.
      rewrite !length_app in Hlen. rewrite length_app.
      pose proof (newline_indent_length indent (S level)). lia.
Qed.

(** *** [json.loads(json.dumps(o, indent=n))] *)

Lemma json_loads_dumps (o : pyval) (indent : nat) :
  py_wf o -> json_loads (json_dumps o indent) = Some (py_join o).
Proof.
  intros Hwf. unfold json_loads, json_dumps.
  rewrite <- (app_nil_r (iterencode indent 0 o)) at 2.
  rewrite skip_ws_iterencode, decodes_all; [reflexivity | done | lia | reflexivity].
Qed.

Lemma py_table_data_wf (table_data : list table_info) :
  table_strings table_data -> py_wf (py_table_data table_data).
Proof.
  intros Htext. apply wf_list, Forall_map, List.Forall_forall. intros t Ht.
  apply wf_dict; cbn [map fst].
  { apply (bool_decide_unpack _). vm_compute. exact I. }
  { repeat (apply List.Forall_cons; [reflexivity|]). apply List.Forall_nil. }
  apply List.Forall_cons; [apply wf_int|].
  apply List.Forall_cons; [|apply List.Forall_nil]. cbn [snd].
  apply wf_list, Forall_map, List.Forall_forall. intros c Hc.
  apply wf_dict; cbn [map fst].
  { apply (bool_decide_unpack _). vm_compute. exact I. }
  { repeat (apply List.Forall_cons; [reflexivity|]). apply List.Forall_nil. }
  apply List.Forall_cons; [apply wf_int|].
  apply List.Forall_cons; [apply wf_int|].
  apply List.Forall_cons; [|apply List.Forall_nil]. cbn [snd].
  apply wf_str. by apply (Htext t c).
Qed.

Lemma py_join_table_data (table_data : list table_info) :
  py_join (py_table_data table_data) = py_table_data (join_table_data table_data).
Proof.
  unfold py_table_data, join_table_data. cbn [py_join]. f_equal.
  rewrite !map_map. apply map_ext. intros t.
  unfold py_table, join_table. cbn [py_join map fst snd page_number cells].
  do 4 f_equal. rewrite !map_map. reflexivity.
Qed.

Lemma map_fixes {A} (f : A -> A) (l : list A) :
  map f l = l <-> forall x, In x l -> f x = x.
Proof.
  induction l as [|a l IH]; cbn [map In]; [by split|].
  split.
  - intros [= Ha Hl] x [<-|Hx]; [done | by apply IH].
  - intros H. f_equal; [by apply H; left | apply IH; intros x Hx; apply H; by right].
Qed.

Lemma join_table_data_id (table_data : list table_info) :
  join_table_data table_data = table_data <-> table_unpaired table_data.
Proof.
  unfold join_table_data, table_unpaired. rewrite map_fixes.
  split.
  - intros H t c Ht Hc. specialize (H t Ht).
    destruct t as [p cs]. unfold join_table in H. cbn [page_number cells] in *.
    injection H as H. rewrite map_fixes in H. specialize (H c Hc).
    destruct c as [r k text]. unfold join_cell in H.
    cbn [row_index column_index content] in *.
    injection H as H. by apply join_pairs_id.
  - intros H [p cs] Ht. unfold join_table. cbn [page_number cells]. f_equal.
    apply map_fixes. intros [r k text] Hc. unfold join_cell.
    cbn [row_index column_index content]. f_equal.
    apply join_pairs_id. exact (H _ _ Ht Hc).
Qed.

(** What [json.loads] makes of the dump of a [table_data]. *)
Lemma json_loads_table_data (table_data : list table_info) (indent : nat) :
  table_strings table_data ->
  json_loads (json_dumps (py_table_data table_data) indent)
  = Some (py_table_data (join_table_data table_data)).
Proof.
  intros Htext. rewrite json_loads_dumps by by apply py_table_data_wf.
  by rewrite py_join_table_data.
Qed.


(** [table_strings] and [table_unpaired], as tests that can be run. *)
Lemma table_strings_sample (table_data : list table_info) :
  forallb (fun t => forallb (fun c => code_points (content c)) (cells t))
          table_data = true ->
  table_strings table_data.
Proof.
  intros H t c Ht Hc.
  rewrite forallb_forall in H. specialize (H t Ht).
  rewrite forallb_forall in H. exact (H c Hc).
Qed.

Lemma table_unpaired_sample (table_data : list table_info) :
  forallb (fun t => forallb (fun c => no_surrogate_pair (content c)) (cells t))
          table_data = true ->
  table_unpaired table_data.
Proof.
  intros H t c Ht Hc.
  rewrite forallb_forall in H. specialize (H t Ht).
  rewrite forallb_forall in H. exact (H c Hc).
Qed.

(** *** The encoder writes ASCII *)

Lemma ascii_text_app (s t : pystr) :
  ascii_text s -> ascii_text t -> ascii_text (s ++ t).
Proof. intros Hs Ht. by apply Forall_app. Qed.

Lemma ascii_text_sample (s : pystr) :
  forallb (fun c => c <? 128)%N s = true -> ascii_text s.
Proof.
  intros H. apply List.Forall_forall. intros c Hc.
  rewrite forallb_forall in H. by apply N.ltb_lt, H.
Qed.

Lemma hex_digit_ascii (d : N) : (d < 16)%N -> (hex_digit d < 128)%N.
Proof. intros Hd. unfold hex_digit. destruct (d <? 10)%N; lia. Qed.

Lemma hex4_ascii (n : N) : (n < 65536)%N -> ascii_text (hex4 n).
Proof.
  intros Hn. unfold hex4.
  repeat (apply List.Forall_cons; [|]); try apply List.Forall_nil;
    try (unfold backslash; lia);
    apply hex_digit_ascii;
    solve [apply N.Div0.div_lt_upper_bound; lia | apply N.mod_lt; lia].
Qed.

Lemma escape_char_ascii (c : N) : ascii_text (escape_char c).
Proof.
  unfold escape_char.
  repeat match goal with
         | |- ascii_text (if (c =? ?k)%N then _ else _) =>
             destruct (c =? k)%N; [by apply ascii_text_sample|]
         end.
  destruct (N.ltb_spec c 32) as [H32|H32]; cbn [orb].
  - rewrite (proj2 (N.ltb_lt c 65536)) by lia. apply hex4_ascii. lia.
  - destruct (N.ltb_spec 126 c) as [H126|H126].
    + destruct (N.ltb_spec c 65536) as [Hbmp|Hbmp]; [by apply hex4_ascii|].
      cbv zeta.
      pose proof (N.mod_lt ((c - 65536) / 1024) 1024 ltac:(lia)).
      pose proof (N.mod_lt (c - 65536) 1024 ltac:(lia)).
      apply ascii_text_app; apply hex4_ascii; lia.
    + apply List.Forall_cons; [lia | apply List.Forall_nil].
Qed.

Lemma escape_chars_ascii (s : pystr) : ascii_text (escape_chars s).
Proof.
  induction s as [|c s IH]; [apply List.Forall_nil|].
  cbn [escape_chars]. by apply ascii_text_app; [apply escape_char_ascii|].
Qed.

Lemma encode_basestring_ascii_ascii (s : pystr) :
  ascii_text (encode_basestring_ascii s).
Proof.
  unfold encode_basestring_ascii.
  apply List.Forall_cons; [unfold dquote; lia|].
  apply ascii_text_app; [apply escape_chars_ascii|].
  apply List.Forall_cons; [unfold dquote; lia | apply List.Forall_nil].
Qed.

Lemma string_of_uint_ascii (d : uint) :
  ascii_text (codes (NilEmpty.string_of_uint d)).
Proof.
  induction d; cbn [NilEmpty.string_of_uint codes];
    [apply List.Forall_nil | apply List.Forall_cons; [by vm_compute | done] ..].
Qed.

Lemma str_int_ascii (n : Z) : ascii_text (codes (str_int n)).
Proof.
  destruct n as [|p|p].
  - by apply ascii_text_sample.
  - rewrite str_int_pos. apply string_of_uint_ascii.
  - rewrite str_int_neg. cbn [codes].
    apply List.Forall_cons; [by vm_compute | apply string_of_uint_ascii].
Qed.

Lemma newline_indent_ascii (indent level : nat) :
  ascii_text (newline_indent indent level).
Proof.
  unfold newline_indent. apply List.Forall_cons; [unfold LF; lia|].
  induction (indent * level)%nat as [|n IH]; [apply List.Forall_nil|].
  cbn [spaces]. by apply List.Forall_cons; [lia|].
Qed.

Lemma encode_more_ascii {A} (encode : A -> pystr) (nl : pystr) (items : list A) :
  ascii_text nl ->
  Forall (fun item => ascii_text (encode item)) items ->
  ascii_text (encode_more encode nl items).
Proof.
  intros Hnl. induction 1 as [|item items Hitem _ IH]; [apply List.Forall_nil|].
  cbn [encode_more].
  apply ascii_text_app; [by apply ascii_text_sample|].
  by repeat apply ascii_text_app.
Qed.

(** Whatever the strings of a value, its encoding is ASCII. *)
Lemma iterencode_ascii (o : pyval) (indent level : nat) :
  ascii_text (iterencode indent level o).
Proof.
  revert level.
  induction o as [|b|n|s|items IH|items IH] using pyval_ind; intros level.
  - by apply ascii_text_sample.
  - destruct b; by apply ascii_text_sample.
  - apply str_int_ascii.
  - apply encode_basestring_ascii_ascii.
  - destruct items as [|first rest]; [by apply ascii_text_sample|].
    apply Forall_cons in IH as [Hfirst IH]. cbn [iterencode].
    repeat apply ascii_text_app;
      try apply newline_indent_ascii; try (by apply ascii_text_sample);
      [apply Hfirst|].
    apply encode_more_ascii; [apply newline_indent_ascii|].
    eapply List.Forall_impl; [|exact IH]. intros item Hitem. apply Hitem.
  - destruct items as [|[key first] rest]; [by apply ascii_text_sample|].
    apply Forall_cons in IH as [Hfirst IH]. cbn [snd] in Hfirst.
    cbn [iterencode].
    repeat apply ascii_text_app;
      try apply newline_indent_ascii; try apply encode_basestring_ascii_ascii;
      try (by apply ascii_text_sample); [apply Hfirst|].
    apply encode_more_ascii; [apply newline_indent_ascii|].
    eapply List.Forall_impl; [|exact IH]. intros [k v] Hitem. cbn [snd] in Hitem.
    repeat apply ascii_text_app;
      [apply encode_basestring_ascii_ascii | by apply ascii_text_sample | apply Hitem].
Qed.

(** * The claims *)

(** C1: when [start_page] and [end_page] are both set, [calculate_cost]
    returns, for every list of documents, seven times the sum over the
    documents of [min(end_page, page_count) - start_page + 1]. *)
Theorem calculate_cost_formula
    (self : AddOn) (docs : list Document) (s e : Z) (w : world) :
  cfg_start_page (data self) = Some s ->
  cfg_end_page (data self) = Some e ->
  fst (calculate_cost self docs w)
  = Return (7 * Zsum (map (fun doc => Z.min e (page_count doc) - s + 1) docs)).
Proof.
  intros Hs He. rewrite (calculate_cost_set self e docs w He).
  rewrite Hs. reflexivity.
Qed.

Lemma calculate_cost_formula_witness :
  fst (calculate_cost addon_two_documents (documents addon_two_documents) fresh)
  = Return 35.
Proof.
  exact (calculate_cost_formula addon_two_documents
           (documents addon_two_documents) 2 4 fresh eq_refl eq_refl).
Defined.

(** C2: with an inverted range (pages 3 to 1 of a document of 5 pages)
    and an account that can pay, [main] leaves with the message about the
    range only after [validate] has printed the cost and called
    [charge_credits] with it; no page goes to the analyzer. *)
Theorem main_inverted_range_charges_first :
  main addon_inverted_range fresh
  = (SysExit 0,
     mkWorld
       [EvPrint (-7); EvChargeCredits (-7);
        EvSetMessage
          "The end page you provided is smaller than the start page, try again"]
       ∅).
Proof. reflexivity. Qed.

(** C3: in a run whose validation passes, with
    [1 <= start_page <= end_page] and an analyzer that answers, [main]
    returns and its events are those of [validate], the authentication,
    and then, document by document, one analyzer call per page of
    [page_interval start_page (min end_page page_count)]; that interval
    lists exactly the pages from [start_page] to
    [min(end_page, page_count)], each once, in increasing order. *)
Theorem main_submits_clamped_range (self : AddOn) (w : world) :
  1 <= main_start_page self <= main_end_page self ->
  fst (validate self w) = Return true ->
  (forall url, analyze_answer self url <> None) ->
  fst (main self w) = Return tt /\
  events_during (main self) w
  = events_during (validate self) w
    ++ EvAuthenticate
       :: flat_map
            (fun document =>
               map (fun p => EvAnalyze "prebuilt-layout"
                               (LargeImageUrl (doc_id document) p))
                   (page_interval (main_start_page self)
                      (Z.min (main_end_page self) (page_count document))))
            (documents self) /\
  forall document,
    StronglySorted Z.lt
      (page_interval (main_start_page self)
         (Z.min (main_end_page self) (page_count document))) /\
    forall p,
      In p (page_interval (main_start_page self)
              (Z.min (main_end_page self) (page_count document)))
      <-> main_start_page self <= p <= Z.min (main_end_page self) (page_count document).
Proof.
  intros Hrange Hvalid Hans. split; [|split].
  - by rewrite main_spec.
  - unfold events_during at 1. rewrite main_spec by done.
    cbn [snd trace]. apply drop_trace_app.
  - intros document. apply page_interval_spec.
Qed.

Lemma main_submits_clamped_range_witness :
  events_during (main addon_two_documents) fresh
  = [EvPrint 35; EvChargeCredits 35; EvAuthenticate;
     EvAnalyze "prebuilt-layout" (LargeImageUrl 11 2);
     EvAnalyze "prebuilt-layout" (LargeImageUrl 11 3);
     EvAnalyze "prebuilt-layout" (LargeImageUrl 12 2);
     EvAnalyze "prebuilt-layout" (LargeImageUrl 12 3);
     EvAnalyze "prebuilt-layout" (LargeImageUrl 12 4)].
Proof.
  refine (proj1 (proj2 (main_submits_clamped_range addon_two_documents fresh _ _ _))).
  - vm_compute. split; discriminate.
  - reflexivity.
  - discriminate.
Defined.

(** C4: whenever [validate] returns a value it has printed the cost
    that [calculate_cost] returns for the selected documents and has
    called [charge_credits] once, with that cost; it returns [False]
    exactly when that call reports insufficient funds ([ValueError]) or
    an API fault ([APIError]), and [True] exactly when the call goes
    through.  [validate] never calls [charge_credits] with another
    amount. *)
Theorem validate_false_iff_charge_fails (self : AddOn) (w : world) :
  (forall b,
     fst (validate self w) = Return b ->
     exists cost,
       fst (calculate_cost self (documents self) w) = Return cost /\
       events_during (validate self) w = [EvPrint cost; EvChargeCredits cost] /\
       (b = false <->
        charge_answer self cost = ChargeValueError \/
        charge_answer self cost = ChargeAPIError) /\
       (b = true <-> charge_answer self cost = Charged))
  /\
  (fst (validate self w) = Return false <->
   exists cost,
     fst (calculate_cost self (documents self) w) = Return cost /\
     In (EvChargeCredits cost) (events_during (validate self) w) /\
     (charge_answer self cost = ChargeValueError \/
      charge_answer self cost = ChargeAPIError))
  /\
  (forall amount,
     In (EvChargeCredits amount) (events_during (validate self) w) ->
     fst (calculate_cost self (documents self) w) = Return amount /\
     (charge_answer self amount = Charged ->
      fst (validate self w) = Return true)).
Proof.
  destruct (validate_spec self w) as (r & evs & Hrun & Hcase).
  rewrite (validate_events self w r evs Hrun), Hrun. cbn [fst].
  destruct Hcase as [msg _ | _ _ | cost _ _ Hcost].
  - split; [|split; [split|]].
    + discriminate.
    + discriminate.
    + intros (amount & _ & [Hin|[]] & _). discriminate Hin.
    + intros amount [Hin|[]]. discriminate Hin.
  - split; [|split; [split|]].
    + discriminate.
    + discriminate.
    + intros (amount & _ & [] & _).
    + intros amount [].
  - split; [|split; [split|]].
    + intros b [= <-]. exists cost. split; [exact Hcost|]. split; [reflexivity|].
      destruct (charge_answer self cost); cbn [charged];
        (split; split; try discriminate; try reflexivity);
        solve [intros [|]; discriminate | by left | by right].
    + intros Hfalse. exists cost. split; [exact Hcost|].
      split; [right; left; reflexivity|].
      destruct (charge_answer self cost); [discriminate | by left | by right].
    + intros (amount & _ & Hin & Hfail).
      destruct Hin as [Hin|[Hin|[]]]; [discriminate Hin|].
      injection Hin as ->.
      by destruct Hfail as [-> | ->].
    + intros amount Hin.
      destruct Hin as [Hin|[Hin|[]]]; [discriminate Hin|].
      injection Hin as ->.
      split; [exact Hcost|]. intros Hok. by rewrite Hok.
Qed.

Lemma validate_false_iff_charge_fails_witness :
  fst (validate addon_no_credits fresh) = Return false /\
  exists cost,
    fst (calculate_cost addon_no_credits (documents addon_no_credits) fresh)
    = Return cost /\
    events_during (validate addon_no_credits) fresh
    = [EvPrint cost; EvChargeCredits cost] /\
    (false = false <->
     charge_answer addon_no_credits cost = ChargeValueError \/
     charge_answer addon_no_credits cost = ChargeAPIError) /\
    (false = true <-> charge_answer addon_no_credits cost = Charged).
Proof.
  pose proof (validate_false_iff_charge_fails addon_no_credits fresh)
    as (Hreturn & Hiff & _).
  assert (Hfalse : fst (validate addon_no_credits fresh) = Return false).
  { apply (proj2 Hiff). exists 35.
    split; [reflexivity|]. split; [right; left; reflexivity | left; reflexivity]. }
  split; [exact Hfalse | exact (Hreturn false Hfalse)].
Defined.

(** C5: [convert_to_csv] returns, table after table and cell after cell,
    the row [[page_number, row_index, column_index, content]] of each
    cell; the number of rows is the total number of cells. *)
Theorem convert_to_csv_rows (table_data : list table_info) :
  convert_to_csv table_data
  = flat_map
      (fun table_info =>
         map (fun cell =>
                [CsvInt (page_number table_info); CsvInt (row_index cell);
                 CsvInt (column_index cell); CsvStr (content cell)])
             (cells table_info))
      table_data
  /\
  length (convert_to_csv table_data)
  = list_sum (map (fun table_info => length (cells table_info)) table_data).
Proof.
  rewrite convert_to_csv_flat_map. split; [reflexivity|].
  induction table_data as [|t rest IH]; [reflexivity|].
  cbn [flat_map map list_sum fold_right].
  rewrite length_app, length_map, IH. reflexivity.
Qed.

(** C6, as the code has it: with [end_page] set [calculate_cost] always
    returns a cost; with [end_page] absent it raises [TypeError] on the
    first document, so it faults exactly when there is a document, and
    returns 0 for an empty list of documents. *)
Theorem calculate_cost_faults_on_first_document
    (self : AddOn) (docs : list Document) (w : world) :
  (forall e, cfg_end_page (data self) = Some e ->
     exists cost, fst (calculate_cost self docs w) = Return cost)
  /\
  (cfg_end_page (data self) = None -> docs <> [] ->
     calculate_cost self docs w = (Raised TypeError, w))
  /\
  (cfg_end_page (data self) = None -> docs = [] ->
     fst (calculate_cost self docs w) = Return 0).
Proof.
  split; [|split].
  - intros e He. rewrite (calculate_cost_set self e docs w He). eauto.
  - intros He Hdocs. destruct docs as [|doc rest]; [done|].
    by apply calculate_cost_unset_cons.
  - intros _ ->. reflexivity.
Qed.

Lemma calculate_cost_faults_on_first_document_witness :
  calculate_cost addon_without_end_page [mkDocument 1 5] fresh
  = (Raised TypeError, fresh).
Proof.
  apply (proj1 (proj2 (calculate_cost_faults_on_first_document
                         addon_without_end_page [mkDocument 1 5] fresh)));
    [reflexivity | discriminate].
Defined.

(** C6 as stated fails: [end_page] is absent and [calculate_cost] returns
    0 without raising, because no document is there to be compared. *)
Lemma calculate_cost_without_end_page_returns :
  cfg_end_page (data addon_without_end_page) = None /\
  calculate_cost addon_without_end_page (documents addon_without_end_page) fresh
  = (Return 0, mkWorld [EvPrint 0] ∅).
Proof. split; reflexivity. Qed.




(** C8: a CSV run keeps what the file of a document held and adds to it
    the header, only when the file was empty, and then the rows of the
    run; so from an empty file two runs on the same document id leave
    one header line followed by the rows of the first run and those of
    the second. *)
Theorem csv_output_is_append_only (self1 self2 : AddOn) (w0 : world) (id : Z) :
  let w1 := snd (main self1 w0) in
  let w2 := snd (main self2 w1) in
  let rows1 :=
    csv_rows_for self1 (main_start_page self1) (main_end_page self1) id
                 (documents self1) in
  let rows2 :=
    csv_rows_for self2 (main_start_page self2) (main_end_page self2) id
                 (documents self2) in
  let old := text_of (files w0) (csv_path id) in
  main_output_format self1 = "csv" ->
  main_output_format self2 = "csv" ->
  fst (validate self1 w0) = Return true ->
  fst (validate self2 w1) = Return true ->
  1 <= main_start_page self1 <= main_end_page self1 ->
  1 <= main_start_page self2 <= main_end_page self2 ->
  (forall url, analyze_answer self1 url <> None) ->
  (forall url, analyze_answer self2 url <> None) ->
  (exists document, In document (documents self1) /\ doc_id document = id) ->
  (exists document, In document (documents self2) /\ doc_id document = id) ->
  (old = [] ->
     text_of (files w1) (csv_path id) = csv_line csv_header ++ csv_lines rows1) /\
  (old <> [] ->
     text_of (files w1) (csv_path id) = old ++ csv_lines rows1) /\
  (old = [] ->
     text_of (files w2) (csv_path id)
     = csv_line csv_header ++ csv_lines rows1 ++ csv_lines rows2).
Proof.
  intros w1 w2 rows1 rows2 old Hfmt1 Hfmt2 Hv1 Hv2 Hr1 Hr2 Ha1 Ha2 Hd1 Hd2.
  assert (Hex : forall docs,
             (exists document, In document docs /\ doc_id document = id) ->
             existsb (fun document => doc_id document =? id) docs = true).
  { intros docs (d & Hin & Hid). apply existsb_exists. exists d.
    split; [done | by apply Z.eqb_eq]. }
  assert (Hw1 : text_of (files w1) (csv_path id) = old ++ csv_appended old rows1).
  { subst w1. rewrite main_spec by done. cbn [snd files].
    rewrite Hfmt1, files_after_csv_text, Hex by done. reflexivity. }
  assert (Hw2 : text_of (files w2) (csv_path id)
                = text_of (files w1) (csv_path id)
                  ++ csv_appended (text_of (files w1) (csv_path id)) rows2).
  { subst w2. rewrite main_spec by done. cbn [snd files].
    rewrite Hfmt2, files_after_csv_text, Hex by done. reflexivity. }
  split; [|split].
  - intros Hold. rewrite Hw1, Hold. reflexivity.
  - intros Hold. rewrite Hw1. unfold csv_appended.
    destruct old as [|c old']; [done|]. reflexivity.
  - intros Hold. rewrite Hw2, Hw1.
    rewrite <- app_assoc, csv_appended_app. rewrite Hold.
    unfold csv_appended. cbn [length Z.of_nat Z.eqb app].
    by rewrite csv_lines_app.
Qed.

Lemma csv_output_is_append_only_witness :
  text_of (files (snd (main addon_csv (snd (main addon_csv fresh))))) (csv_path 42)
  = csv_line csv_header
    ++ csv_lines (csv_rows_for addon_csv 1 2 42 (documents addon_csv))
    ++ csv_lines (csv_rows_for addon_csv 1 2 42 (documents addon_csv)).
Proof.
  refine (proj2 (proj2 (csv_output_is_append_only addon_csv addon_csv fresh 42
                          _ _ _ _ _ _ _ _ _ _)) _).
  - reflexivity.
  - reflexivity.
  - reflexivity.
  - reflexivity.
  - vm_compute. split; discriminate.
  - vm_compute. split; discriminate.
  - discriminate.
  - discriminate.
  - exists (mkDocument 42 5). split; [left; reflexivity | reflexivity].
  - exists (mkDocument 42 5). split; [left; reflexivity | reflexivity].
  - reflexivity.
Defined.

(** C9: when there is a document and every document has
    [min(end_page, page_count) < start_page - 1], [calculate_cost]
    returns a negative cost, and [validate] (documents selected, an
    organization to charge) hands that negative amount to
    [charge_credits]. *)
Theorem negative_cost_is_charged (self : AddOn) (e : Z) (w : world) :
  cfg_end_page (data self) = Some e ->
  documents self <> [] ->
  Forall (fun doc => Z.min e (page_count doc)
                     < get_default (cfg_start_page (data self)) 1 - 1)
         (documents self) ->
  document_count self <> None ->
  truthy (org_id self) = true ->
  exists cost,
    cost < 0 /\
    fst (calculate_cost self (documents self) w) = Return cost /\
    In (EvChargeCredits cost) (events_during (validate self) w).
Proof.
  intros He Hne Hall Hcount Horg.
  set (s := get_default (cfg_start_page (data self)) 1) in *.
  exists (7 * Zsum (map (clamped_pages s e) (documents self))).
  split; [|split].
  - assert (Zsum (map (clamped_pages s e) (documents self)) < 0); [|lia].
    destruct (documents self) as [|doc rest]; [done|]. clear Hne.
    revert doc Hall. induction rest as [|d rest IH]; intros doc Hall.
    + apply Forall_inv in Hall. cbn. unfold clamped_pages. lia.
    + rewrite map_cons, Zsum_cons.
      pose proof (Forall_inv Hall) as Hdoc. cbv beta in Hdoc.
      specialize (IH d (Forall_inv_tail Hall)).
      unfold clamped_pages at 1. lia.
  - by rewrite (calculate_cost_set self e _ w He).
  - destruct (validate_spec self w) as (r & evs & Hrun & Hcase).
    rewrite (validate_events self w r evs Hrun).
    destruct Hcase as [msg [Hc|Ho] | Hend _ | cost _ _ Hcost].
    + done.
    + congruence.
    + congruence.
    + rewrite (calculate_cost_set self e _ w He) in Hcost.
      injection Hcost as <-. right; left; reflexivity.
Qed.

Lemma negative_cost_is_charged_witness :
  exists cost,
    cost < 0 /\
    fst (calculate_cost addon_short_document (documents addon_short_document) fresh)
    = Return cost /\
    In (EvChargeCredits cost) (events_during (validate addon_short_document) fresh).
Proof.
  apply (negative_cost_is_charged addon_short_document 6 fresh).
  - reflexivity.
  - discriminate.
  - repeat constructor.
  - discriminate.
  - reflexivity.
Defined.



(** * More of the code *)

(** ** The page loop when the analyzer may fail *)

Lemma submitted_pages_all (answers : Z -> bool) (pages : list Z) :
  forallb answers pages = true -> submitted_pages answers pages = pages.
Proof.
  induction pages as [|p pages IH]; [done|]. cbn [forallb submitted_pages].
  intros [Hp Hrest]%andb_true_iff. by rewrite Hp, IH.
Qed.

Lemma submitted_pages_stop (answers : Z -> bool) (before after : list Z) (p : Z) :
  forallb answers before = true -> answers p = false ->
  submitted_pages answers (before ++ p :: after) = before ++ [p].
Proof.
  intros Hbefore Hp. induction before as [|q before IH]; cbn [app submitted_pages].
  - by rewrite Hp.
  - cbn [forallb] in Hbefore. apply andb_true_iff in Hbefore as [Hq Hbefore].
    by rewrite Hq, IH.
Qed.

Lemma forallb_stop (answers : Z -> bool) (before after : list Z) (p : Z) :
  answers p = false -> forallb answers (before ++ p :: after) = false.
Proof.
  intros Hp. rewrite forallb_app. cbn [forallb]. rewrite Hp.
  by rewrite andb_false_r.
Qed.

Lemma analyze_loop_general (self : AddOn) (document : Document)
    (pages : list Z) (acc : list table_info) (w : world) :
  for_fold pages acc
    (fun table_data page_number =>
       let* result :=
         begin_analyze_document_from_url self "prebuilt-layout"
           (LargeImageUrl (doc_id document) page_number) in
       ret (table_data ++ get_table_data result)) w
  = (if forallb (answered self document) pages
     then Return (acc ++ flat_map (page_tables self document) pages)
     else Raised AnalyzerError,
     mkWorld
       (trace w
        ++ map (analyze_event document)
               (submitted_pages (answered self document) pages))
       (files w)).
Proof.
  revert acc w. induction pages as [|p pages IH]; intros acc w;
    cbn [for_fold flat_map map forallb submitted_pages].
  - unfold ret. rewrite !app_nil_r. by destruct w.
  - unfold bind at 1, bind at 1, begin_analyze_document_from_url, bind at 1, emit.
    unfold page_tables at 1, answered at 1 3.
    destruct (analyze_answer self (LargeImageUrl (doc_id document) p)) as [result|].
    + unfold ret at 1 2. rewrite IH. cbn [trace files andb].
      rewrite <- !app_assoc. reflexivity.
    + reflexivity.
Qed.

(** The loop body of [main], whatever the analyzer does. *)
Lemma main_document_general
    (self : AddOn) (output_format : string) (start_page end_page : Z)
    (document : Document) (w : world) :
  main_document self output_format start_page end_page document w
  = if document_answered self start_page end_page document
    then (Return tt,
          mkWorld (trace w ++ analyzer_calls start_page end_page document)
            (written_files output_format document
               (document_tables self start_page end_page document) (files w)))
    else (Raised AnalyzerError,
          mkWorld
            (trace w
             ++ map (analyze_event document)
                  (submitted_pages (answered self document)
                     (page_interval start_page
                        (Z.min end_page (page_count document)))))
            (files w)).
Proof.
  unfold document_answered.
  destruct (forallb _ _) eqn:Hall.
  - apply main_document_spec. intros p Hp.
    rewrite forallb_forall in Hall. specialize (Hall p Hp).
    unfold answered in Hall. by destruct (analyze_answer _ _).
  - unfold main_document. cbv zeta. rewrite main_range_interval.
    unfold bind at 1. by rewrite analyze_loop_general, Hall.
Qed.

(** ** The loop over the documents when the analyzer may fail *)

Lemma for_each_app {A} (xs ys : list A) (body : A -> M unit) (w : world) :
  for_each (xs ++ ys) body w
  = match for_each xs body w with
    | (Return _, w') => for_each ys body w'
    | (SysExit c, w') => (SysExit c, w')
    | (Raised e, w') => (Raised e, w')
    end.
Proof.
  revert w. induction xs as [|x xs IH]; intros w; cbn [app for_each].
  - reflexivity.
  - unfold bind. destruct (body x w) as [[[]|c|e] w']; [apply IH|done|done].
Qed.

Lemma documents_loop_answered
    (self : AddOn) (output_format : string) (start_page end_page : Z)
    (docs : list Document) (w : world) :
  forallb (document_answered self start_page end_page) docs = true ->
  for_each docs (main_document self output_format start_page end_page) w
  = (Return tt,
     mkWorld (trace w ++ flat_map (analyzer_calls start_page end_page) docs)
       (files_after self output_format start_page end_page docs (files w))).
Proof.
  unfold files_after. revert w.
  induction docs as [|d docs IH]; intros w Hall; cbn [for_each flat_map fold_left].
  - unfold ret. rewrite app_nil_r. by destruct w.
  - cbn [forallb] in Hall. apply andb_true_iff in Hall as [Hd Hall].
    unfold bind. rewrite main_document_general, Hd, IH by done.
    cbn [trace files]. by rewrite <- app_assoc.
Qed.

Lemma written_files_frame
    (output_format : string) (document : Document)
    (table_data : list table_info) (fs : gmap string pystr) (path : string) :
  path <> json_path (doc_id document) ->
  path <> csv_path (doc_id document) ->
  written_files output_format document table_data fs !! path = fs !! path.
Proof.
  intros Hjson Hcsv. unfold written_files.
  destruct (String.eqb output_format "json"); [by rewrite lookup_insert_ne|].
  destruct (String.eqb output_format "csv"); [by rewrite lookup_insert_ne|].
  reflexivity.
Qed.

Lemma analyzer_calls_are_analyze (start_page end_page : Z) (document : Document) :
  forallb is_analyze (analyzer_calls start_page end_page document) = true.
Proof.
  unfold analyzer_calls. apply forallb_forall. intros e He.
  apply in_map_iff in He as (p & <- & _). reflexivity.
Qed.

Lemma analyze_events_are_analyze (document : Document) (pages : list Z) :
  forallb is_analyze (map (analyze_event document) pages) = true.
Proof.
  apply forallb_forall. intros e He.
  apply in_map_iff in He as (p & <- & _). reflexivity.
Qed.

(** Whatever the analyzer does, the loop over the documents returns or
    raises the analyzer's error, adds only analyzer calls to the trace,
    and leaves every file that is not the output of one of the documents
    as it was. *)
Lemma documents_loop_invariant
    (self : AddOn) (output_format : string) (start_page end_page : Z)
    (docs : list Document) (w : world) :
  exists (r : outcome unit) (calls : list event) (fs : gmap string pystr),
    for_each docs (main_document self output_format start_page end_page) w
    = (r, mkWorld (trace w ++ calls) fs) /\
    (r = Return tt \/ r = Raised AnalyzerError) /\
    forallb is_analyze calls = true /\
    forall path, ~ output_path docs path -> fs !! path = files w !! path.
Proof.
  revert w. induction docs as [|d docs IH]; intros w; cbn [for_each].
  - exists (Return tt), [], (files w). rewrite app_nil_r.
    repeat split; [by destruct w | by left].
  - unfold bind. rewrite main_document_general.
    destruct (document_answered self start_page end_page d).
    + destruct (IH (mkWorld (trace w ++ analyzer_calls start_page end_page d)
                      (written_files output_format d
                         (document_tables self start_page end_page d) (files w))))
        as (r & calls & fs & Hrun & Hr & Hcalls & Hframe).
      rewrite Hrun. cbn [trace files] in *.
      exists r, (analyzer_calls start_page end_page d ++ calls), fs.
      rewrite <- app_assoc. repeat split; [done | |].
      * rewrite forallb_app, analyzer_calls_are_analyze, Hcalls. reflexivity.
      * intros path Hpath. rewrite Hframe.
        -- apply written_files_frame; intros ->; apply Hpath;
             exists d; (split; [by left|]); solve [by left | by right].
        -- intros (d' & Hd' & Hp). apply Hpath. exists d'. split; [by right | done].
    + eexists _, _, (files w).
      split; [reflexivity|]. split; [by right|]. split; [|done].
      apply analyze_events_are_analyze.
Qed.

(** ** Every run of [main] *)

Lemma main_classify (self : AddOn) (w : world) :
  exists (r : outcome unit) (tail : list event) (fs : gmap string pystr),
    main self w
    = (r, mkWorld (trace w ++ events_during (validate self) w ++ tail) fs) /\
    main_run self w r tail fs.
Proof.
  destruct (validate_spec self w) as (r0 & evs & Hrun & _).
  rewrite (validate_events self w r0 evs Hrun).
  assert (Hfst : fst (validate self w) = r0) by (by rewrite Hrun).
  unfold main. cbv zeta.
  fold (main_start_page self) (main_end_page self) (main_output_format self).
  unfold bind at 1. rewrite Hrun.
  destruct r0 as [[|]|code|e].
  - cbn [negb]. unfold bind at 1, when at 1, ret at 1.
    destruct (Z.ltb_spec (main_end_page self) (main_start_page self)) as [Hinv|Hle].
    { eexists _, _, _. split; [|by apply run_inverted].
      unfold bind at 1, when at 1, bind at 1, set_message, emit, sys_exit.
      cbn [trace files]. by rewrite <- app_assoc. }
    unfold bind at 1, when at 1, ret at 1.
    destruct (Z.ltb_spec (main_start_page self) 1) as [Hlow|Hge].
    { eexists _, _, _. split; [|by apply run_start_page].
      unfold bind at 1, when at 1, bind at 1, set_message, emit, sys_exit.
      cbn [trace files]. by rewrite <- app_assoc. }
    unfold bind at 1, when at 1, ret at 1. unfold bind at 1, emit.
    destruct (documents_loop_invariant self (main_output_format self)
                (main_start_page self) (main_end_page self) (documents self)
                (mkWorld ((trace w ++ evs) ++ [EvAuthenticate]) (files w)))
      as (r & calls & fs & Hloop & Hr & Hcalls & Hframe).
    cbn [trace files] in *. rewrite Hloop.
    exists r, (EvAuthenticate :: calls), fs. split.
    + by rewrite <- !app_assoc.
    + apply run_documents; [done | lia | done..].
  - cbn [negb]. eexists _, _, _. split; [|by apply run_no_credits].
    unfold bind at 1, when at 1, bind at 1, set_message, emit, sys_exit.
    cbn [trace files]. by rewrite <- app_assoc.
  - exists (SysExit code), [], (files w). rewrite app_nil_r.
    split; [done | by apply run_validate_exits].
  - exists (Raised e), [], (files w). rewrite app_nil_r.
    split; [done | by apply run_validate_raises].
Qed.

(** ** [validate] once the cost is known *)

Lemma validate_charging (self : AddOn) (w : world) (cost : Z) :
  document_count self <> None ->
  truthy (org_id self) = true ->
  fst (calculate_cost self (documents self) w) = Return cost ->
  validate self w
  = (Return (charged (charge_answer self cost)),
     mkWorld (trace w ++ [EvPrint cost; EvChargeCredits cost]) (files w)).
Proof.
  intros Hcount Horg Hcost.
  destruct (validate_spec self w) as (r & evs & Hrun & Hcase). rewrite Hrun.
  destruct Hcase as [msg [Hc|Ho] | Hend Hdocs | cost' _ _ Hcost'].
  - done.
  - congruence.
  - destruct (documents self) as [|doc rest]; [done|].
    rewrite (calculate_cost_unset_cons self doc rest w Hend) in Hcost. discriminate.
  - rewrite Hcost in Hcost'. by injection Hcost' as <-.
Qed.

(** When [validate] returns [True] it has printed and charged one
    amount, and the charge went through. *)
Lemma validate_true_events (self : AddOn) (w : world) :
  fst (validate self w) = Return true ->
  exists cost,
    events_during (validate self) w = [EvPrint cost; EvChargeCredits cost] /\
    charge_answer self cost = Charged /\
    fst (calculate_cost self (documents self) w) = Return cost.
Proof.
  intros Hvalid.
  destruct (validate_spec self w) as (r & evs & Hrun & Hcase).
  rewrite (validate_events self w r evs Hrun).
  rewrite Hrun in Hvalid. cbn [fst] in Hvalid. subst r.
  inversion Hcase as [| |cost _ _ Hcost Hr Hevs]. exists cost.
  split; [done|]. split; [|done].
  by destruct (charge_answer self cost).
Qed.

(** The events of [validate] hold no analyzer call and at most one
    charge. *)
Lemma validate_events_kinds (self : AddOn) (w : world) :
  existsb is_analyze (events_during (validate self) w) = false /\
  (length (List.filter is_charge (events_during (validate self) w)) <= 1)%nat.
Proof.
  destruct (validate_spec self w) as (r & evs & Hrun & Hcase).
  rewrite (validate_events self w r evs Hrun).
  destruct Hcase; split; cbn; lia || reflexivity.
Qed.

Lemma main_events (self : AddOn) (w : world)
    (r : outcome unit) (tail : list event) (fs : gmap string pystr) :
  main self w
  = (r, mkWorld (trace w ++ events_during (validate self) w ++ tail) fs) ->
  events_during (main self) w = events_during (validate self) w ++ tail.
Proof.
  intros Hrun. unfold events_during at 1. rewrite Hrun. cbn [snd trace].
  apply drop_trace_app.
Qed.

(** ** Page ranges, counted *)

Lemma count_up_length (first : Z) (n : nat) : length (count_up first n) = n.
Proof.
  revert first. induction n as [|n IH]; intros first; [done|].
  cbn [count_up length]. by rewrite IH.
Qed.

Lemma analyzer_calls_length (start_page end_page : Z) (document : Document) :
  Z.of_nat (length (analyzer_calls start_page end_page document))
  = Z.max 0 (clamped_pages start_page end_page document).
Proof.
  unfold analyzer_calls, page_interval, clamped_pages.
  rewrite length_map, count_up_length. lia.
Qed.

Lemma filter_all {A} (f : A -> bool) (l : list A) :
  forallb f l = true -> List.filter f l = l.
Proof.
  induction l as [|x l IH]; [done|]. cbn [forallb List.filter].
  intros [Hx Hl]%andb_true_iff. by rewrite Hx, IH.
Qed.

(** ** The files after the documents of a run *)

Lemma files_after_other_format
    (self : AddOn) (output_format : string) (start_page end_page : Z)
    (docs : list Document) (fs : gmap string pystr) :
  output_format <> "json" -> output_format <> "csv" ->
  files_after self output_format start_page end_page docs fs = fs.
Proof.
  intros Hjson Hcsv. unfold files_after. revert fs.
  induction docs as [|d docs IH]; intros fs; cbn [fold_left]; [done|].
  rewrite IH. unfold written_files.
  destruct (String.eqb_spec output_format "json"); [done|].
  by destruct (String.eqb_spec output_format "csv").
Qed.

Lemma files_after_json_other
    (self : AddOn) (start_page end_page : Z) (docs : list Document)
    (fs : gmap string pystr) (id : Z) :
  ~ In id (map doc_id docs) ->
  files_after self "json" start_page end_page docs fs !! json_path id
  = fs !! json_path id.
Proof.
  unfold files_after. revert fs.
  induction docs as [|d docs IH]; intros fs Hid; cbn [fold_left]; [done|].
  cbn [map In] in Hid. rewrite IH by tauto.
  unfold written_files. cbn [String.eqb Ascii.eqb Bool.eqb].
  apply lookup_insert_ne. intros Heq. apply json_path_inj in Heq. tauto.
Qed.

Lemma files_after_json_lookup
    (self : AddOn) (start_page end_page : Z) (docs : list Document)
    (fs : gmap string pystr) (d : Document) :
  List.NoDup (map doc_id docs) -> In d docs ->
  files_after self "json" start_page end_page docs fs !! json_path (doc_id d)
  = Some (json_dumps (py_table_data (document_tables self start_page end_page d)) 4).
Proof.
  unfold files_after. revert fs.
  induction docs as [|d' docs IH]; intros fs Hnd Hin; [destruct Hin|].
  cbn [fold_left]. cbn [map] in Hnd. inversion Hnd as [|? ? Hfresh Hnd']; subst.
  destruct Hin as [->|Hin].
  - fold (files_after self "json" start_page end_page docs
            (written_files "json" d (document_tables self start_page end_page d) fs)).
    rewrite files_after_json_other by done.
    unfold written_files. cbn [String.eqb Ascii.eqb Bool.eqb].
    apply lookup_insert_eq.
  - by apply IH.
Qed.

(** ** File names *)

Lemma json_csv_suffix (x y : string) : x +:+ ".json" <> y +:+ ".csv".
Proof.
  revert y. induction x as [|a x IH]; intros y H.
  - destruct y as [|b [|c y]]; try discriminate H.
    rewrite !str_app_cons in H. injection H as _ _ H.
    apply (f_equal String.length) in H. rewrite str_length_app in H.
    cbn [String.length] in H. lia.
  - destruct y as [|b y].
    + rewrite str_app_cons, str_app_nil_l in H.
      apply (f_equal String.length) in H. cbn [String.length] in H.
      rewrite str_length_app in H. cbn [String.length] in H. lia.
    + rewrite !str_app_cons in H. injection H as _ H. by apply (IH y).
Qed.

Lemma json_csv_path (a b : Z) : json_path a <> csv_path b.
Proof.
  unfold json_path, csv_path. intros H. apply String.app_inj in H.
  by apply json_csv_suffix in H.
Qed.

(** ** Sums *)

Lemma Zsum_permutation (a b : list Z) : Permutation a b -> Zsum a = Zsum b.
Proof.
  induction 1 as [|x l1 l2 Hperm IH|x y l|l1 l2 l3 Hperm1 IH1 Hperm2 IH2];
    unfold Zsum in *; cbn [fold_right] in *; [done | lia | lia | congruence].
Qed.

Lemma Zsum_positive_part (l : list Z) :
  Zsum l <= Zsum (map (Z.max 0) l) /\
  (Zsum l = Zsum (map (Z.max 0) l) <-> Forall (fun x => 0 <= x) l).
Proof.
  induction l as [|x l [IHle IHeq]]; [by split|].
  rewrite map_cons, !Zsum_cons.
  set (a := Zsum l) in *. set (b := Zsum (map (Z.max 0) l)) in *. clearbody a b.
  split; [lia|]. split.
  - intros Heq. apply List.Forall_cons; [lia|]. apply IHeq. lia.
  - intros Hall. pose proof (List.Forall_inv Hall) as Hx. cbv beta in Hx.
    apply List.Forall_inv_tail, IHeq in Hall. lia.
Qed.

Lemma analyzer_calls_total (start_page end_page : Z) (docs : list Document) :
  Z.of_nat (length (flat_map (analyzer_calls start_page end_page) docs))
  = Zsum (map (Z.max 0) (map (clamped_pages start_page end_page) docs)).
Proof.
  induction docs as [|d docs IH]; [done|].
  cbn [flat_map map]. rewrite length_app, Zsum_cons, Nat2Z.inj_add, IH.
  by rewrite analyzer_calls_length.
Qed.

Lemma flat_map_calls_are_analyze (start_page end_page : Z) (docs : list Document) :
  forallb is_analyze (flat_map (analyzer_calls start_page end_page) docs) = true.
Proof.
  induction docs as [|d docs IH]; [done|].
  cbn [flat_map]. by rewrite forallb_app, analyzer_calls_are_analyze, IH.
Qed.

(** ** Answers, as a test and as a statement *)

Lemma answered_all (self : AddOn) (document : Document) (pages : list Z) :
  (forall p, In p pages ->
     analyze_answer self (LargeImageUrl (doc_id document) p) <> None) ->
  forallb (answered self document) pages = true.
Proof.
  intros Hans. apply forallb_forall. intros p Hp. specialize (Hans p Hp).
  unfold answered. by destruct (analyze_answer _ _).
Qed.

Lemma answered_none (self : AddOn) (document : Document) (p : Z) :
  analyze_answer self (LargeImageUrl (doc_id document) p) = None ->
  answered self document p = false.
Proof. intros H. unfold answered. by rewrite H. Qed.

Lemma documents_answered_all
    (self : AddOn) (start_page end_page : Z) (docs : list Document) :
  (forall document p,
     In document docs ->
     In p (page_interval start_page (Z.min end_page (page_count document))) ->
     analyze_answer self (LargeImageUrl (doc_id document) p) <> None) ->
  forallb (document_answered self start_page end_page) docs = true.
Proof.
  intros Hans. apply forallb_forall. intros d Hd.
  apply answered_all. intros p Hp. by apply (Hans d p).
Qed.

(** The loop body when the analyzer stops answering at page [p]. *)
Lemma main_document_stops
    (self : AddOn) (output_format : string) (start_page end_page : Z)
    (document : Document) (w : world) (before after : list Z) (p : Z) :
  page_interval start_page (Z.min end_page (page_count document))
  = before ++ p :: after ->
  (forall q, In q before ->
     analyze_answer self (LargeImageUrl (doc_id document) q) <> None) ->
  analyze_answer self (LargeImageUrl (doc_id document) p) = None ->
  main_document self output_format start_page end_page document w
  = (Raised AnalyzerError,
     mkWorld (trace w ++ map (analyze_event document) (before ++ [p])) (files w)).
Proof.
  intros Hpages Hbefore Hp.
  rewrite main_document_general. unfold document_answered. rewrite Hpages.
  rewrite forallb_stop by (by apply answered_none).
  rewrite submitted_pages_stop;
    [reflexivity | by apply answered_all | by apply answered_none].
Qed.

(** ** What the events after [validate] can be *)

Lemma main_run_tail (self : AddOn) (w : world)
    (r : outcome unit) (tail : list event) (fs : gmap string pystr) :
  main_run self w r tail fs ->
  List.filter is_charge tail = [] /\
  (existsb is_analyze tail = true ->
   fst (validate self w) = Return true /\
   exists calls, tail = EvAuthenticate :: calls).
Proof.
  intros [code Hv|e Hv|Hv|Hv Hinv|Hv Hle Hlow|r' calls fs' Hv Hrange Hr Hcalls Hframe];
    (split; [|try (cbn; discriminate)]); try reflexivity.
  - cbn [List.filter is_charge]. clear -Hcalls.
    induction calls as [|c calls IH]; [done|].
    cbn [forallb] in Hcalls. apply andb_true_iff in Hcalls as [Hc Hcalls].
    cbn [List.filter]. destruct c; try discriminate Hc. by apply IH.
  - intros _. split; [done | by exists calls].
Qed.

(** How [validate] can end without returning a value: through
    [sys.exit(0)], after one of its two messages. *)
Lemma validate_exit (self : AddOn) (w : world) (code : Z) :
  fst (validate self w) = SysExit code ->
  code = 0 /\
  exists msg,
    (msg = msg_no_documents \/ msg = msg_no_organization) /\
    events_during (validate self) w = [EvSetMessage msg].
Proof.
  intros Hv. destruct (validate_spec self w) as (r & evs & Hrun & Hcase).
  rewrite Hrun in Hv. cbn [fst] in Hv. subst r.
  inversion Hcase as [msg Hor| |]; subst. split; [done|].
  clear Hrun Hcase. unfold events_during, validate.
  destruct (document_count self) as [count|].
  - destruct Hor as [Hcount|Horg]; [done|]. rewrite Horg. cbn [negb].
    exists msg_no_organization. split; [by right|].
    cbn [snd trace]. apply drop_trace_app.
  - exists msg_no_documents. split; [by left|].
    cbn [snd trace]. apply drop_trace_app.
Qed.

(** * More properties of the code *)

(** X1: [get_table_data] returns one dictionary per table of the result,
    in the result's order, with the table's page number and one cell
    dictionary per cell, in the table's order; a table without cells is
    kept, with an empty list of cells. *)
Theorem get_table_data_tables (result : AnalyzeResult) :
  get_table_data result
  = map (fun table =>
           mkTableInfo (az_page_number table)
             (map (fun cell =>
                     mkCellInfo (az_row_index cell) (az_column_index cell)
                                (az_text cell))
                  (az_cells table)))
        (tables result)
  /\ length (get_table_data result) = length (tables result).
Proof.
  rewrite get_table_data_map. split; [reflexivity | apply length_map].
Qed.

(** X2: the CSV rows of an analyzer result: [convert_to_csv] of
    [get_table_data] gives, table after table and cell after cell, the
    row [[page_number, row_index, column_index, text]]; a table without
    cells gives no row, and the number of rows is the number of cells of
    the result. *)
Theorem csv_rows_of_result (result : AnalyzeResult) :
  convert_to_csv (get_table_data result)
  = flat_map
      (fun table =>
         map (fun cell =>
                [CsvInt (az_page_number table); CsvInt (az_row_index cell);
                 CsvInt (az_column_index cell); CsvStr (az_text cell)])
             (az_cells table))
      (tables result)
  /\
  length (convert_to_csv (get_table_data result))
  = list_sum (map (fun table => length (az_cells table)) (tables result)).
Proof.
  rewrite get_table_data_map, convert_to_csv_flat_map.
  destruct result as [ts]. cbn [tables].
  assert (Hrows :
            flat_map (fun t => map (cell_row t) (cells t))
                     (map table_info_of ts)
            = flat_map
                (fun table =>
                   map (fun cell =>
                          [CsvInt (az_page_number table); CsvInt (az_row_index cell);
                           CsvInt (az_column_index cell); CsvStr (az_text cell)])
                       (az_cells table))
                ts).
  { induction ts as [|table rest IH]; [done|].
    cbn [map flat_map]. rewrite IH. f_equal.
    unfold table_info_of. cbn [cells]. by rewrite map_map. }
  rewrite Hrows. split; [reflexivity|]. clear Hrows.
  induction ts as [|table rest IH]; [done|].
  cbn [map flat_map]. rewrite length_app, length_map, IH. reflexivity.
Qed.

(** X3: [convert_to_csv] goes through a concatenation: the rows of the
    table data accumulated over several pages are the rows of the first
    pages followed by the rows of the later ones; no table data gives no
    row. *)
Theorem convert_to_csv_concat (table_data1 table_data2 : list table_info) :
  convert_to_csv (table_data1 ++ table_data2)
  = convert_to_csv table_data1 ++ convert_to_csv table_data2
  /\ convert_to_csv [] = [].
Proof. split; [apply convert_to_csv_app | reflexivity]. Qed.

(** X4: with [end_page] set, the cost does not depend on the order of
    the documents, and the cost of two selections put together is the
    sum of their costs. *)
Theorem calculate_cost_additive
    (self : AddOn) (e : Z) (docs1 docs2 docs : list Document) (w : world) :
  cfg_end_page (data self) = Some e ->
  Permutation (docs1 ++ docs2) docs ->
  exists cost1 cost2,
    fst (calculate_cost self docs1 w) = Return cost1 /\
    fst (calculate_cost self docs2 w) = Return cost2 /\
    fst (calculate_cost self docs w) = Return (cost1 + cost2).
Proof.
  intros He Hperm. rewrite !(calculate_cost_set self e _ w He).
  eexists _, _. split; [reflexivity|]. split; [reflexivity|]. cbn [fst]. f_equal.
  rewrite <- (Zsum_permutation _ _
                (Permutation_map (clamped_pages
                   (get_default (cfg_start_page (data self)) 1) e) Hperm)).
  rewrite map_app, Zsum_app. lia.
Qed.

Lemma calculate_cost_additive_witness :
  exists cost1 cost2,
    fst (calculate_cost addon_two_documents [mkDocument 11 3] fresh) = Return cost1 /\
    fst (calculate_cost addon_two_documents [mkDocument 12 10] fresh) = Return cost2 /\
    fst (calculate_cost addon_two_documents [mkDocument 12 10; mkDocument 11 3] fresh)
    = Return (cost1 + cost2).
Proof.
  apply (calculate_cost_additive addon_two_documents 4
           [mkDocument 11 3] [mkDocument 12 10]).
  - reflexivity.
  - apply perm_swap.
Defined.

(** X5: with [end_page] set, no document is billed for more pages than
    [page_count - start_page + 1] nor for more than
    [end_page - start_page + 1]: the cost is at most seven times the sum
    of the former and at most seven times the latter for each
    document. *)
Theorem calculate_cost_bounds
    (self : AddOn) (e : Z) (docs : list Document) (w : world) :
  cfg_end_page (data self) = Some e ->
  let s := get_default (cfg_start_page (data self)) 1 in
  exists cost,
    fst (calculate_cost self docs w) = Return cost /\
    cost <= 7 * Zsum (map (fun doc => page_count doc - s + 1) docs) /\
    cost <= 7 * (Z.of_nat (length docs) * (e - s + 1)).
Proof.
  intros He s. rewrite (calculate_cost_set self e docs w He).
  eexists. split; [reflexivity|]. fold s.
  induction docs as [|doc rest [IH1 IH2]]; [by split|].
  rewrite !map_cons, !Zsum_cons. unfold clamped_pages at 1 3.
  cbn [length]. split; lia.
Qed.

Lemma calculate_cost_bounds_witness :
  exists cost,
    fst (calculate_cost addon_two_documents (documents addon_two_documents) fresh)
    = Return cost /\
    cost <= 7 * Zsum (map (fun doc => page_count doc - 2 + 1)
                          (documents addon_two_documents)) /\
    cost <= 7 * (Z.of_nat (length (documents addon_two_documents)) * (4 - 2 + 1)).
Proof.
  apply (calculate_cost_bounds addon_two_documents 4
           (documents addon_two_documents) fresh).
  reflexivity.
Defined.

(** X6: in a run that gets past [validate] with a valid range and an
    analyzer that answers, the cost charged is at most seven times the
    number of pages submitted to the analyzer, and it is exactly that
    when, and only when, every document has at least [start_page - 1]
    pages: a shorter document lowers the bill of the others. *)
Theorem cost_and_analyzer_calls (self : AddOn) (w : world) (e cost : Z) :
  cfg_end_page (data self) = Some e ->
  1 <= main_start_page self <= e ->
  fst (validate self w) = Return true ->
  (forall url, analyze_answer self url <> None) ->
  fst (calculate_cost self (documents self) w) = Return cost ->
  let calls :=
    Z.of_nat (length (List.filter is_analyze (events_during (main self) w))) in
  cost <= 7 * calls /\
  (cost = 7 * calls <->
   Forall (fun doc => main_start_page self - 1 <= page_count doc) (documents self)).
Proof.
  intros He Hrange Hvalid Hans Hcost calls.
  assert (Hend : main_end_page self = e) by (unfold main_end_page; by rewrite He).
  destruct (validate_true_events self w Hvalid) as (c & Hevs & _ & _).
  assert (Hcalls : calls
                   = Zsum (map (Z.max 0)
                             (map (clamped_pages (main_start_page self) e)
                                  (documents self)))).
  { subst calls. unfold events_during at 1.
    rewrite main_spec by (rewrite ?Hend; done). cbn [snd trace].
    rewrite drop_trace_app, Hevs, Hend. cbn [app List.filter is_analyze].
    rewrite filter_all by apply flat_map_calls_are_analyze.
    apply analyzer_calls_total. }
  rewrite (calculate_cost_set self e _ w He) in Hcost. cbn [fst] in Hcost.
  injection Hcost as <-. fold (main_start_page self). rewrite Hcalls.
  destruct (Zsum_positive_part
              (map (clamped_pages (main_start_page self) e) (documents self)))
    as [Hle Heq].
  set (a := Zsum (map (clamped_pages (main_start_page self) e) (documents self))) in *.
  set (b := Zsum (map (Z.max 0) _)) in *.
  assert (Hpages :
            Forall (fun x => 0 <= x)
                   (map (clamped_pages (main_start_page self) e) (documents self))
            <-> Forall (fun doc => main_start_page self - 1 <= page_count doc)
                       (documents self)).
  { rewrite List.Forall_map. split; intros H; (eapply List.Forall_impl; [|exact H]);
      intros doc Hdoc; cbv beta in *; unfold clamped_pages in *; lia. }
  clearbody a b. split; [lia|]. rewrite <- Hpages, <- Heq. lia.
Qed.

Lemma cost_and_analyzer_calls_witness :
  7 < 7 * Z.of_nat (length (List.filter is_analyze
                              (events_during (main addon_mixed_lengths) fresh))).
Proof.
  pose proof (cost_and_analyzer_calls addon_mixed_lengths fresh 5 7) as H.
  cbv zeta in H. destruct H as [Hle Heq].
  - reflexivity.
  - vm_compute. split; discriminate.
  - reflexivity.
  - discriminate.
  - reflexivity.
  - assert (Hne : 7 <> 7 * Z.of_nat (length (List.filter is_analyze
                      (events_during (main addon_mixed_lengths) fresh)))).
    { intros Heq'. apply Heq in Heq'. apply List.Forall_inv in Heq'.
      vm_compute in Heq'. by apply Heq'. }
    lia.
Defined.

(** X7: a run without a selection or without an organization: [main]
    leaves through [sys.exit(0)] after the one message of [validate];
    nothing is printed, charged, analysed or written.  The missing
    selection is reported first. *)
Theorem main_without_selection (self : AddOn) (w : world) :
  (document_count self = None ->
   main self w
   = (SysExit 0, mkWorld (trace w ++ [EvSetMessage msg_no_documents]) (files w)))
  /\
  (document_count self <> None -> truthy (org_id self) = false ->
   main self w
   = (SysExit 0, mkWorld (trace w ++ [EvSetMessage msg_no_organization]) (files w))).
Proof.
  split.
  - intros Hcount. unfold main, bind at 1, validate. by rewrite Hcount.
  - intros Hcount Horg. unfold main, bind at 1, validate.
    destruct (document_count self); [|done]. by rewrite Horg.
Qed.

Lemma main_without_selection_witness :
  main addon_no_organization fresh
  = (SysExit 0, mkWorld [EvSetMessage "No organization to charge."] ∅).
Proof.
  apply (proj2 (main_without_selection addon_no_organization fresh));
    [discriminate | reflexivity].
Defined.

(** X8: when [charge_credits] refuses the cost, for lack of credits or
    for an API fault alike, [main] prints the cost, makes that one call,
    sets the message about insufficient credits and leaves through
    [sys.exit(0)]: no page is analysed and no file is written. *)
Theorem main_charge_refused (self : AddOn) (w : world) (cost : Z) :
  document_count self <> None ->
  truthy (org_id self) = true ->
  fst (calculate_cost self (documents self) w) = Return cost ->
  charge_answer self cost <> Charged ->
  main self w
  = (SysExit 0,
     mkWorld
       (trace w ++ [EvPrint cost; EvChargeCredits cost; EvSetMessage msg_no_credits])
       (files w)).
Proof.
  intros Hcount Horg Hcost Hcharge.
  unfold main, bind at 1. rewrite (validate_charging self w cost) by done.
  assert (charged (charge_answer self cost) = false) as ->
    by (by destruct (charge_answer self cost)).
  cbn [negb]. unfold bind at 1, when at 1, bind at 1, set_message, emit, sys_exit.
  cbn [trace files]. by rewrite <- app_assoc.
Qed.

Lemma main_charge_refused_witness :
  main addon_no_credits fresh
  = (SysExit 0,
     mkWorld
       [EvPrint 35; EvChargeCredits 35;
        EvSetMessage
          "You do not have sufficient AI credits to run this Add-On on this document set"]
       ∅).
Proof.
  apply (main_charge_refused addon_no_credits fresh 35);
    [discriminate | reflexivity | reflexivity | discriminate].
Defined.

(** X9: a first page below 1 is refused only after the charge.  With
    [start_page < 1], [start_page <= end_page], at least one document
    and no negative page count, a run whose charge goes through has
    charged at least 7 credits when [main] sets the message about the
    start page and leaves; no page is analysed and no file is
    written. *)
Theorem main_start_page_below_one (self : AddOn) (w : world) (e : Z) :
  cfg_end_page (data self) = Some e ->
  fst (validate self w) = Return true ->
  main_start_page self <= e ->
  main_start_page self < 1 ->
  documents self <> [] ->
  Forall (fun doc => 0 <= page_count doc) (documents self) ->
  exists cost,
    7 <= cost /\
    charge_answer self cost = Charged /\
    main self w
    = (SysExit 0,
       mkWorld
         (trace w
          ++ [EvPrint cost; EvChargeCredits cost; EvSetMessage msg_start_page])
         (files w)).
Proof.
  intros He Hvalid Hle Hlow Hdocs Hpages.
  assert (Hend : main_end_page self = e) by (unfold main_end_page; by rewrite He).
  assert (Hsum : 1 <= Zsum (map (clamped_pages (main_start_page self) e)
                                (documents self))).
  { destruct (documents self) as [|doc rest]; [done|]. clear Hdocs.
    revert doc Hpages. induction rest as [|d rest IH]; intros doc Hpages.
    - apply List.Forall_inv in Hpages. cbn. unfold clamped_pages. lia.
    - rewrite map_cons, Zsum_cons.
      pose proof (List.Forall_inv Hpages) as Hdoc. cbv beta in Hdoc.
      specialize (IH d (List.Forall_inv_tail Hpages)).
      unfold clamped_pages at 1. lia. }
  destruct (validate_true_events self w Hvalid) as (cost & Hevs & Hcharged & Hcost).
  exists cost. split; [|split; [done|]].
  - rewrite (calculate_cost_set self e _ w He) in Hcost. cbn [fst] in Hcost.
    injection Hcost as <-. fold (main_start_page self). lia.
  - destruct (main_classify self w) as (r & tail & fs & Hrun & Hcase).
    rewrite Hrun, Hevs.
    destruct Hcase as [code Hv|ex Hv|Hv|_ Hinv|_ _ _|r calls fs _ Hrange _ _ _];
      try congruence; try lia.
    reflexivity.
Qed.

Lemma main_start_page_below_one_witness :
  exists cost,
    7 <= cost /\
    charge_answer addon_page_zero cost = Charged /\
    main addon_page_zero fresh
    = (SysExit 0,
       mkWorld
         [EvPrint cost; EvChargeCredits cost;
          EvSetMessage "Your start page is less than 1, please try again"]
         ∅).
Proof.
  apply (main_start_page_below_one addon_page_zero fresh 1).
  - reflexivity.
  - reflexivity.
  - vm_compute. discriminate.
  - reflexivity.
  - discriminate.
  - repeat constructor. vm_compute. discriminate.
Defined.

(** X10: the default of [end_page] in [main] does not reach
    [calculate_cost]: when the configuration has no [end_page] and a
    document is selected (with an organization to charge), [main] ends
    with the [TypeError] of the comparison; nothing is printed, no
    message is set, nothing is charged. *)
Theorem main_without_end_page (self : AddOn) (w : world) :
  document_count self <> None ->
  truthy (org_id self) = true ->
  cfg_end_page (data self) = None ->
  documents self <> [] ->
  main self w = (Raised TypeError, w).
Proof.
  intros Hcount Horg Hend Hdocs.
  unfold main, bind at 1, validate.
  destruct (document_count self); [|done]. rewrite Horg. cbn [negb].
  destruct (documents self) as [|doc rest]; [done|].
  unfold bind at 1. by rewrite (calculate_cost_unset_cons self doc rest w Hend).
Qed.

Lemma main_without_end_page_witness :
  main addon_default_end_page fresh = (Raised TypeError, fresh).
Proof.
  apply (main_without_end_page addon_default_end_page fresh);
    [discriminate | reflexivity | reflexivity | discriminate].
Defined.

(** X11: when the analyzer fails on a page of a document, the loop body
    of [main] ends with the analyzer's error: the pages before it and
    the failing page have been submitted, in order, the pages after it
    are not, and no output file is written for the document, whatever
    the tables already collected. *)
Theorem analyzer_failure_in_document
    (self : AddOn) (output_format : string) (start_page end_page : Z)
    (document : Document) (w : world) (before after : list Z) (p : Z) :
  page_interval start_page (Z.min end_page (page_count document))
  = before ++ p :: after ->
  (forall q, In q before ->
     analyze_answer self (LargeImageUrl (doc_id document) q) <> None) ->
  analyze_answer self (LargeImageUrl (doc_id document) p) = None ->
  main_document self output_format start_page end_page document w
  = (Raised AnalyzerError,
     mkWorld
       (trace w
        ++ map (fun q => EvAnalyze "prebuilt-layout"
                           (LargeImageUrl (doc_id document) q))
               (before ++ [p]))
       (files w)).
Proof. apply main_document_stops. Qed.

Lemma analyzer_failure_in_document_witness :
  main_document addon_analyzer_stops "json" 1 4 (mkDocument 12 10) fresh
  = (Raised AnalyzerError,
     mkWorld
       [EvAnalyze "prebuilt-layout" (LargeImageUrl 12 1);
        EvAnalyze "prebuilt-layout" (LargeImageUrl 12 2);
        EvAnalyze "prebuilt-layout" (LargeImageUrl 12 3)]
       ∅).
Proof.
  apply (analyzer_failure_in_document addon_analyzer_stops "json" 1 4
           (mkDocument 12 10) fresh [1; 2] [4] 3).
  - reflexivity.
  - intros q [<-|[<-|[]]]; discriminate.
  - reflexivity.
Defined.

(** X12: an analyzer failure ends the whole run.  In a run that got past
    [validate] with a valid range, when the analyzer answers for the
    documents [before] and fails on page [p] of the next document,
    [main] ends with the analyzer's error after the charge: the output
    files of the documents [before] are written, the failing document
    gets none, and the documents after it are never submitted. *)
Theorem analyzer_failure_ends_run
    (self : AddOn) (w : world) (before after : list Document) (document : Document)
    (pages_before pages_after : list Z) (p : Z) :
  documents self = before ++ document :: after ->
  fst (validate self w) = Return true ->
  1 <= main_start_page self <= main_end_page self ->
  (forall d q,
     In d before ->
     In q (page_interval (main_start_page self)
             (Z.min (main_end_page self) (page_count d))) ->
     analyze_answer self (LargeImageUrl (doc_id d) q) <> None) ->
  page_interval (main_start_page self)
    (Z.min (main_end_page self) (page_count document))
  = pages_before ++ p :: pages_after ->
  (forall q, In q pages_before ->
     analyze_answer self (LargeImageUrl (doc_id document) q) <> None) ->
  analyze_answer self (LargeImageUrl (doc_id document) p) = None ->
  main self w
  = (Raised AnalyzerError,
     mkWorld
       (trace w ++ events_during (validate self) w
        ++ EvAuthenticate
           :: flat_map (analyzer_calls (main_start_page self) (main_end_page self))
                       before
           ++ map (fun q => EvAnalyze "prebuilt-layout"
                              (LargeImageUrl (doc_id document) q))
                  (pages_before ++ [p]))
       (files_after self (main_output_format self)
          (main_start_page self) (main_end_page self) before (files w))).
Proof.
  intros Hdocs Hvalid Hrange Hbefore Hpages Hpb Hp.
  destruct (validate_spec self w) as (r & evs & Hrun & _).
  rewrite (validate_events self w r evs Hrun).
  rewrite Hrun in Hvalid. cbn [fst] in Hvalid. subst r.
  unfold main. cbv zeta.
  fold (main_start_page self) (main_end_page self) (main_output_format self).
  unfold bind at 1. rewrite Hrun. cbn [negb].
  unfold bind at 1, when at 1, ret at 1.
  destruct (Z.ltb_spec (main_end_page self) (main_start_page self)); [lia|].
  unfold bind at 1, when at 1, ret at 1.
  destruct (Z.ltb_spec (main_start_page self) 1); [lia|].
  unfold bind at 1, when at 1, ret at 1.
  unfold bind at 1, emit. rewrite Hdocs, for_each_app.
  rewrite documents_loop_answered by (by apply documents_answered_all).
  cbn [for_each]. unfold bind at 1.
  rewrite (main_document_stops self _ _ _ document _ pages_before pages_after p)
    by done.
  cbn [trace files]. by rewrite <- !app_assoc.
Qed.

Lemma analyzer_failure_ends_run_witness :
  fst (main addon_analyzer_stops fresh) = Raised AnalyzerError /\
  events_during (main addon_analyzer_stops) fresh
  = [EvPrint 70; EvChargeCredits 70; EvAuthenticate;
     EvAnalyze "prebuilt-layout" (LargeImageUrl 11 1);
     EvAnalyze "prebuilt-layout" (LargeImageUrl 11 2);
     EvAnalyze "prebuilt-layout" (LargeImageUrl 12 1);
     EvAnalyze "prebuilt-layout" (LargeImageUrl 12 2);
     EvAnalyze "prebuilt-layout" (LargeImageUrl 12 3)].
Proof.
  pose proof (analyzer_failure_ends_run addon_analyzer_stops fresh
                [mkDocument 11 2] [mkDocument 13 10] (mkDocument 12 10)
                [1; 2] [4] 3) as H.
  unfold events_during. rewrite H.
  - split; reflexivity.
  - reflexivity.
  - reflexivity.
  - vm_compute. split; discriminate.
  - intros d q [<-|[]] [<-|[<-|[]]]; discriminate.
  - reflexivity.
  - intros q [<-|[<-|[]]]; discriminate.
  - reflexivity.
Defined.

(** X13: an [output_format] that is neither [json] nor [csv] is not
    refused: the run charges the cost and submits every page as usual,
    and then writes no file at all. *)
Theorem main_unknown_format (self : AddOn) (w : world) :
  main_output_format self <> "json" ->
  main_output_format self <> "csv" ->
  fst (validate self w) = Return true ->
  1 <= main_start_page self <= main_end_page self ->
  (forall url, analyze_answer self url <> None) ->
  main self w
  = (Return tt,
     mkWorld
       (trace w ++ events_during (validate self) w
        ++ EvAuthenticate
           :: flat_map
                (fun document =>
                   map (fun p => EvAnalyze "prebuilt-layout"
                                   (LargeImageUrl (doc_id document) p))
                       (page_interval (main_start_page self)
                          (Z.min (main_end_page self) (page_count document))))
                (documents self))
       (files w)).
Proof.
  intros Hjson Hcsv Hvalid Hrange Hans.
  rewrite main_spec by done. by rewrite files_after_other_format.
Qed.

Lemma main_unknown_format_witness :
  main addon_xml fresh
  = (Return tt,
     mkWorld
       [EvPrint 14; EvChargeCredits 14; EvAuthenticate;
        EvAnalyze "prebuilt-layout" (LargeImageUrl 42 1);
        EvAnalyze "prebuilt-layout" (LargeImageUrl 42 2)]
       ∅).
Proof.
  apply (main_unknown_format addon_xml fresh).
  - discriminate.
  - discriminate.
  - reflexivity.
  - vm_compute. split; discriminate.
  - discriminate.
Defined.

(** X14: a JSON write replaces the file.  When the loop body of [main]
    writes the JSON output of a document twice (two runs, whatever each
    analyzer answered), the files are those the second write alone would
    have left: nothing of the first run's output remains. *)
Theorem json_output_is_replaced
    (self1 self2 : AddOn) (s1 e1 s2 e2 : Z) (d1 d2 : Document) (w : world) :
  doc_id d1 = doc_id d2 ->
  (forall p, In p (page_interval s1 (Z.min e1 (page_count d1))) ->
     analyze_answer self1 (LargeImageUrl (doc_id d1) p) <> None) ->
  (forall p, In p (page_interval s2 (Z.min e2 (page_count d2))) ->
     analyze_answer self2 (LargeImageUrl (doc_id d2) p) <> None) ->
  let w1 := snd (main_document self1 "json" s1 e1 d1 w) in
  files (snd (main_document self2 "json" s2 e2 d2 w1))
  = files (snd (main_document self2 "json" s2 e2 d2 w)).
Proof.
  intros Hid Hans1 Hans2 w1. subst w1.
  rewrite !main_document_spec by done. cbn [snd files].
  unfold written_files. cbn [String.eqb Ascii.eqb Bool.eqb].
  rewrite Hid. apply insert_insert_eq.
Qed.

Lemma json_output_is_replaced_witness :
  files (snd (main_document addon_two_documents "json" 2 4 (mkDocument 11 3)
                (snd (main_document addon_csv "json" 1 2 (mkDocument 11 5) fresh))))
  = files (snd (main_document addon_two_documents "json" 2 4 (mkDocument 11 3) fresh)).
Proof.
  apply (json_output_is_replaced addon_csv addon_two_documents 1 2 2 4
           (mkDocument 11 5) (mkDocument 11 3) fresh).
  - reflexivity.
  - intros p _. discriminate.
  - intros p _. discriminate.
Defined.

(** X15: whatever happens in a run, [main] leaves every file alone that
    is not [tables-<id>.json] or [tables-<id>.csv] for a selected
    document. *)
Theorem main_touches_only_outputs (self : AddOn) (w : world) (path : string) :
  (forall document, In document (documents self) ->
     path <> "tables-" +:+ str_int (doc_id document) +:+ ".json" /\
     path <> "tables-" +:+ str_int (doc_id document) +:+ ".csv") ->
  files (snd (main self w)) !! path = files w !! path.
Proof.
  intros Hpath.
  assert (Hout : ~ output_path (documents self) path).
  { intros (d & Hd & Hp). destruct (Hpath d Hd) as [Hjson Hcsv].
    by destruct Hp. }
  destruct (main_classify self w) as (r & tail & fs & Hrun & Hcase).
  rewrite Hrun. cbn [snd files].
  destruct Hcase as [| | | | |r calls fs _ _ _ _ Hframe]; try reflexivity.
  by apply Hframe.
Qed.

Lemma main_touches_only_outputs_witness :
  files (snd (main addon_two_documents (mkWorld [] {[ "notes.txt" := codes "keep" ]})))
  !! "notes.txt"
  = Some (codes "keep").
Proof.
  rewrite (main_touches_only_outputs addon_two_documents
             (mkWorld [] {[ "notes.txt" := codes "keep" ]}) "notes.txt").
  - reflexivity.
  - intros d [<-|[<-|[]]]; split; intros H; vm_compute in H; discriminate H.
Defined.

(** X16: whatever happens in a run, [main] calls [charge_credits] at
    most once, and every page submitted to the analyzer comes after a
    call of [charge_credits] that went through. *)
Theorem main_charges_once_before_analysis (self : AddOn) (w : world) :
  (length (List.filter is_charge (events_during (main self) w)) <= 1)%nat /\
  forall pre model url post,
    events_during (main self) w = pre ++ EvAnalyze model url :: post ->
    exists cost,
      In (EvChargeCredits cost) pre /\ charge_answer self cost = Charged.
Proof.
  destruct (main_classify self w) as (r & tail & fs & Hrun & Hcase).
  rewrite (main_events self w r tail fs Hrun).
  destruct (main_run_tail self w r tail fs Hcase) as [Hnocharge Hanalyze].
  destruct (validate_events_kinds self w) as [Hvnone Hvone]. split.
  - rewrite List.filter_app, length_app, Hnocharge. cbn [length]. lia.
  - intros pre model url post Hsplit.
    assert (Hin : In (EvAnalyze model url) (events_during (validate self) w ++ tail)).
    { rewrite Hsplit. apply in_or_app. right. by left. }
    apply in_app_or in Hin as [Hin|Hin].
    { assert (existsb is_analyze (events_during (validate self) w) = true)
        by (apply existsb_exists; by eexists).
      congruence. }
    destruct Hanalyze as (Hvalid & calls & ->).
    { apply existsb_exists. by eexists. }
    destruct (validate_true_events self w Hvalid) as (cost & Hevs & Hcharged & _).
    rewrite Hevs in Hsplit. exists cost. split; [|done].
    destruct pre as [|e1 [|e2 [|e3 pre]]]; try discriminate Hsplit.
    injection Hsplit as _ <- _ _. right; left; reflexivity.
Qed.

Lemma main_charges_once_before_analysis_witness :
  exists cost,
    In (EvChargeCredits cost) [EvPrint 35; EvChargeCredits 35; EvAuthenticate] /\
    charge_answer addon_two_documents cost = Charged.
Proof.
  apply (proj2 (main_charges_once_before_analysis addon_two_documents fresh)
           [EvPrint 35; EvChargeCredits 35; EvAuthenticate]
           "prebuilt-layout" (LargeImageUrl 11 2)
           [EvAnalyze "prebuilt-layout" (LargeImageUrl 11 3);
            EvAnalyze "prebuilt-layout" (LargeImageUrl 12 2);
            EvAnalyze "prebuilt-layout" (LargeImageUrl 12 3);
            EvAnalyze "prebuilt-layout" (LargeImageUrl 12 4)]).
  reflexivity.
Defined.

(** X17: whenever [main] leaves through [sys.exit], the exit code is 0,
    the last thing the run did was to set one of the five messages of
    [validate] and [main], no page was submitted to the analyzer and no
    file has changed. *)
Theorem main_sys_exit (self : AddOn) (w : world) (code : Z) :
  fst (main self w) = SysExit code ->
  code = 0 /\
  files (snd (main self w)) = files w /\
  existsb is_analyze (events_during (main self) w) = false /\
  exists pre msg,
    events_during (main self) w = pre ++ [EvSetMessage msg] /\
    In msg [msg_no_documents; msg_no_organization; msg_no_credits;
            msg_inverted; msg_start_page].
Proof.
  destruct (main_classify self w) as (r & tail & fs & Hrun & Hcase).
  rewrite (main_events self w r tail fs Hrun), Hrun. cbn [fst snd].
  destruct (validate_events_kinds self w) as [Hvnone _].
  intros ->.
  inversion Hcase as [c Hv|e Hv|Hv|Hv Hinv|Hv Hle Hlow|r' calls fs' Hv Hrange Hr];
    subst.
  - destruct (validate_exit self w code Hv) as (-> & msg & Hmsg & Hev).
    rewrite Hev, app_nil_r. repeat split. exists [], msg. split; [done|].
    cbn [In]. destruct Hmsg as [-> | ->]; auto.
  - repeat split; [by rewrite existsb_app, Hvnone|].
    exists (events_during (validate self) w), msg_no_credits.
    split; [done|]. cbn [In]. auto.
  - repeat split; [by rewrite existsb_app, Hvnone|].
    exists (events_during (validate self) w), msg_inverted.
    split; [done|]. cbn [In]. auto.
  - repeat split; [by rewrite existsb_app, Hvnone|].
    exists (events_during (validate self) w), msg_start_page.
    split; [done|]. cbn [In]. auto 6.
  - destruct Hr; discriminate.
Qed.

Lemma main_sys_exit_witness :
  files (snd (main addon_no_credits fresh)) = files fresh /\
  exists pre msg,
    events_during (main addon_no_credits) fresh = pre ++ [EvSetMessage msg] /\
    In msg [msg_no_documents; msg_no_organization; msg_no_credits;
            msg_inverted; msg_start_page].
Proof.
  destruct (main_sys_exit addon_no_credits fresh 0) as (_ & Hfiles & _ & Hlast);
    [reflexivity|].
  split; [exact Hfiles | exact Hlast].
Defined.

(** X18: the JSON output of a whole run.  When the selected documents
    have distinct ids, a JSON run that gets past [validate] with a valid
    range and an analyzer that answers leaves, for every selected
    document, a file [tables-<id>.json] that holds the dump of the table
    data of that document: no document overwrites the output of
    another.  When no content of that table data has a high surrogate
    immediately followed by a low one, [json.loads] reads the file back
    as that table data. *)
Theorem json_run_round_trips (self : AddOn) (w : world) (document : Document) :
  main_output_format self = "json" ->
  fst (validate self w) = Return true ->
  1 <= main_start_page self <= main_end_page self ->
  (forall url, analyze_answer self url <> None) ->
  List.NoDup (map doc_id (documents self)) ->
  In document (documents self) ->
  let table_data :=
    document_tables self (main_start_page self) (main_end_page self) document in
  exists text,
    text = json_dumps (py_table_data table_data) 4 /\
    read_text ("tables-" +:+ str_int (doc_id document) +:+ ".json")
              (snd (main self w))
    = Some text /\
    (table_text table_data -> json_loads text = Some (py_table_data table_data)).
Proof.
  intros Hfmt Hvalid Hrange Hans Hnd Hin table_data.
  rewrite main_spec by done. cbn [snd]. unfold read_text. cbn [files].
  rewrite Hfmt. fold (json_path (doc_id document)).
  rewrite files_after_json_lookup by done.
  eexists. split; [reflexivity|]. split; [reflexivity|].
  intros [Hstrings Hunpaired].
  rewrite json_loads_table_data by done.
  by rewrite (proj2 (join_table_data_id table_data)).
Qed.

Lemma json_run_round_trips_witness :
  exists text,
    read_text "tables-12.json" (snd (main addon_two_documents fresh)) = Some text /\
    json_loads text
    = Some (py_table_data (document_tables addon_two_documents 2 4 (mkDocument 12 10))).
Proof.
  destruct (json_run_round_trips addon_two_documents fresh (mkDocument 12 10))
    as (text & _ & Hread & Hloads);
    [| | | | | | exists text; split; [exact Hread|]; apply Hloads;
               split; [apply table_strings_sample | apply table_unpaired_sample];
               vm_compute; reflexivity].
  - reflexivity.
  - reflexivity.
  - vm_compute. split; discriminate.
  - discriminate.
  - repeat constructor; cbn; intros H; repeat destruct H as [H|H]; discriminate H || done.
  - right; left; reflexivity.
Defined.

(** X19: the names of the output files.  Two documents share
    [tables-<id>.json], or [tables-<id>.csv], only when they have the
    same id, and the JSON file of a document is never the CSV file of a
    document. *)
Theorem output_file_names (a b : Z) :
  ("tables-" +:+ str_int a +:+ ".json" = "tables-" +:+ str_int b +:+ ".json"
   <-> a = b)
  /\
  ("tables-" +:+ str_int a +:+ ".csv" = "tables-" +:+ str_int b +:+ ".csv"
   <-> a = b)
  /\
  "tables-" +:+ str_int a +:+ ".json" <> "tables-" +:+ str_int b +:+ ".csv".
Proof.
  split; [|split].
  - split; [apply json_path_inj | by intros ->].
  - split; [apply csv_path_inj | by intros ->].
  - apply json_csv_path.
Qed.

(** X20: an empty selection.  When the search selects no document (and
    an organization can be charged, the charge of 0 goes through and the
    range [main] works with is valid), the run charges 0 credits,
    builds the analyzer client and returns without a message and without
    writing a file; this holds even when [end_page] is not
    configured. *)
Theorem main_empty_selection (self : AddOn) (w : world) :
  documents self = [] ->
  document_count self <> None ->
  truthy (org_id self) = true ->
  charge_answer self 0 = Charged ->
  1 <= main_start_page self <= main_end_page self ->
  main self w
  = (Return tt,
     mkWorld (trace w ++ [EvPrint 0; EvChargeCredits 0; EvAuthenticate]) (files w)).
Proof.
  intros Hdocs Hcount Horg Hcharge Hrange.
  assert (Hcost : fst (calculate_cost self (documents self) w) = Return 0)
    by (by rewrite Hdocs).
  pose proof (validate_charging self w 0 Hcount Horg Hcost) as Hrun.
  rewrite Hcharge in Hrun. cbn [charged] in Hrun.
  unfold main. cbv zeta.
  fold (main_start_page self) (main_end_page self) (main_output_format self).
  unfold bind at 1. rewrite Hrun. cbn [negb].
  unfold bind at 1, when at 1, ret at 1.
  destruct (Z.ltb_spec (main_end_page self) (main_start_page self)); [lia|].
  unfold bind at 1, when at 1, ret at 1.
  destruct (Z.ltb_spec (main_start_page self) 1); [lia|].
  unfold bind at 1, when at 1, ret at 1.
  unfold bind at 1, emit. rewrite Hdocs. cbn [for_each trace files]. unfold ret.
  by rewrite <- app_assoc.
Qed.

Lemma main_empty_selection_witness :
  main addon_without_end_page fresh
  = (Return tt, mkWorld [EvPrint 0; EvChargeCredits 0; EvAuthenticate] ∅).
Proof.
  apply (main_empty_selection addon_without_end_page fresh).
  - reflexivity.
  - discriminate.
  - reflexivity.
  - reflexivity.
  - vm_compute. split; discriminate.
Defined.

(** X21: whatever text the analyzer answers, the JSON output of a
    document is ASCII: [tables-<id>.json] holds
    [json.dumps(table_data, indent=4)], and every character of that text
    is below 128, so that the [utf-8] encoder of the file has nothing to
    refuse. *)
Theorem json_output_is_ascii
    (self : AddOn) (start_page end_page : Z) (document : Document) (w : world) :
  (forall p,
     In p (page_interval start_page (Z.min end_page (page_count document))) ->
     analyze_answer self (LargeImageUrl (doc_id document) p) <> None) ->
  exists text,
    read_text ("tables-" +:+ str_int (doc_id document) +:+ ".json")
              (snd (main_document self "json" start_page end_page document w))
    = Some text /\
    text
    = json_dumps
        (py_table_data (document_tables self start_page end_page document)) 4 /\
    Forall (fun c => (c < 128)%N) text.
Proof.
  intros Hans. rewrite main_document_spec by done. cbn [snd].
  eexists. split; [|split; [reflexivity|]].
  - unfold read_text, written_files. cbn [files String.eqb Ascii.eqb Bool.eqb].
    apply lookup_insert_eq.
  - apply iterencode_ascii.
Qed.

Lemma json_output_is_ascii_witness :
  exists text,
    read_text "tables-42.json"
      (snd (main_document addon_surrogates "json" 1 1 (mkDocument 42 5) fresh))
    = Some text /\
    text
    = json_dumps
        (py_table_data (document_tables addon_surrogates 1 1 (mkDocument 42 5))) 4 /\
    Forall (fun c => (c < 128)%N) text.
Proof.
  apply (json_output_is_ascii addon_surrogates 1 1 (mkDocument 42 5) fresh).
  intros p _. discriminate.
Defined.

